(** * Verification of the intent lifecycle engine of the nexwave mock server

    Shallow embedding of [packages/mock-server/src/state.ts] (class
    [MockState]) together with the HTTP glue that the properties below
    talk about ([handlers/mock-controls.ts]: list and watch endpoints).

    Modelling choices:
    - a JS [Map] iterates in insertion order, and [set] on an existing key
      keeps its position: it is modelled as an association list;
    - a JS [Set] of callbacks likewise: a list where [add] appends a
      callback that is not already there;
    - the asynchronous driver [simulateExecution] is a pending task per
      call, parked on the [await] of a stage delay; the environment decides
      which timer fires next ([DriverStep]) and what [Math.random()]
      returned at that moment.  Every synchronous segment of JS code runs
      atomically, so one action of the trace is one such segment;
    - [Date.now()] reads a clock in the state, advanced by [Tick]. *)

From Stdlib Require Import String List ZArith QArith Bool Lia DecimalString.
Import ListNotations.
Open Scope nat_scope.
Open Scope string_scope.
Open Scope list_scope.

(** ** Data model (types/src/intent.ts, mock-server/src/state.ts) *)

Inductive ExecutionState :=
| PENDING | VALIDATING | PLANNING | SIMULATING | SUBMITTING
| CONFIRMING | VERIFYING | COMPLETED | FAILED | CANCELLED | RETRYING.

Scheme Equality for ExecutionState.

Definition state_name (s : ExecutionState) : string :=
  match s with
  | PENDING => "PENDING" | VALIDATING => "VALIDATING" | PLANNING => "PLANNING"
  | SIMULATING => "SIMULATING" | SUBMITTING => "SUBMITTING"
  | CONFIRMING => "CONFIRMING" | VERIFYING => "VERIFYING"
  | COMPLETED => "COMPLETED" | FAILED => "FAILED" | CANCELLED => "CANCELLED"
  | RETRYING => "RETRYING"
  end.

Definition UUID := string.
Definition Timestamp := Z.

Record Asset := mkAsset { symbol : string; decimals : Z }.

(** The engine only reads the optional [id] and the [output] asset of the
    caller's payload; the other fields are echoed back untouched. *)
Record Intent := mkIntent { intent_id : option UUID; output : Asset }.

Record Event := mkEvent {
  stage : string; type : string; message : string; timestamp : Timestamp }.

Record Outcome := mkOutcome {
  success : bool;
  actualOutput : option (Asset * string);
  actualFees : string;
  actualSlippageBps : Z;
  transactionId : option string }.

Record StoredIntent := mkStored {
  id : UUID;
  intent : Intent;
  state : ExecutionState;
  events : list Event;
  createdAt : Timestamp;
  completedAt : option Timestamp;
  outcome : option Outcome }.

Inductive AgentStatus :=
| A_CREATED | A_STARTING | A_RUNNING | A_STOPPING | A_STOPPED | A_FAILED.

Record StoredAgent := mkAgent {
  agent_name : string; status : AgentStatus; stoppedAt : option Timestamp }.

(** ** Insertion-ordered maps (JS [Map]) *)

Fixpoint map_get {V} (k : string) (m : list (string * V)) : option V :=
  match m with
  | [] => None
  | (k', v) :: m' => if String.eqb k k' then Some v else map_get k m'
  end.

Fixpoint map_set {V} (k : string) (v : V) (m : list (string * V))
  : list (string * V) :=
  match m with
  | [] => [(k, v)]
  | (k', v') :: m' =>
      if String.eqb k k' then (k', v) :: m' else (k', v') :: map_set k v m'
  end.

(** [Set.add]: appended unless already present. *)
Definition set_add (x : nat) (l : list nat) : list nat :=
  if existsb (Nat.eqb x) l then l else l ++ [x].

(** ** [notifyWatchers]: [this.intentWatchers.get(id)?.forEach(cb => cb(event))]

    [forEach] runs the callbacks in the Set's order; a callback either
    returns (with its side effect on [acc]) or throws ([None]).  A throw
    leaves [forEach] at once, keeping the effects done so far. *)

Inductive Completion (A : Type) := Normal (a : A) | Throw (a : A).
Arguments Normal {A} a.
Arguments Throw {A} a.

Section ForEach.
Context {Cb Ev Acc : Type} (run : Cb -> Ev -> Acc -> option Acc).

Fixpoint forEach (cbs : list Cb) (ev : Ev) (acc : Acc) : Completion Acc :=
    match cbs with
    | [] => Normal acc
    | cb :: rest =>
        match run cb ev acc with
        | None => Throw acc
        | Some acc' => forEach rest ev acc'
        end
    end.
End ForEach.

(** ** [watchIntent] and [notifyWatchers] over any callbacks

    The [intentWatchers] map on its own, with callbacks of any behaviour.
    A callback is known by its identity (JavaScript compares functions by
    reference), a number here, and [run] gives its behaviour: it returns
    with its effect on [acc], or throws ([None]).  [watchIntent] creates the
    Set when the id has none, then adds the callback; [notifyWatchers] runs
    [forEach] over the Set, and a throw leaves it and [notifyWatchers]
    ([Throw]). *)
Module Callbacks.
Section Callbacks.
Context {Ev Acc : Type} (run : nat -> Ev -> Acc -> option Acc).

Definition watchIntent (i : UUID) (cb : nat) (w : list (UUID * list nat))
  : list (UUID * list nat) :=
  let w1 := match map_get i w with Some _ => w | None => map_set i [] w end in
  match map_get i w1 with
  | Some set => map_set i (set_add cb set) w1
  | None => w1
  end.

Definition notifyWatchers (i : UUID) (ev : Ev) (w : list (UUID * list nat))
  (acc : Acc) : Completion Acc :=
  match map_get i w with
  | None => Normal acc
  | Some cbs => forEach run cbs ev acc
  end.
End Callbacks.
End Callbacks.

(** Callbacks registered one after the other under one id. *)
Definition register_all (i : UUID) (cbs : list nat) (w : list (UUID * list nat))
  : list (UUID * list nat) :=
  fold_left (fun w cb => Callbacks.watchIntent i cb w) cbs w.

(** ** Server-sent events of the watch endpoint

    Each [/watch] connection is a stream with a number; its callback writes
    [JSON.stringify(event)] and, on a terminal state, the [[DONE]] marker.
    The callback is an [async] function, so it never throws synchronously. *)

Inductive SseMsg :=
| SseData (intentId : UUID) (st : ExecutionState) (ev : option Event)
| SseDone.

Definition is_terminal (s : ExecutionState) : bool :=
  match s with COMPLETED | FAILED | CANCELLED => true | _ => false end.

Fixpoint stream_write (sid : nat) (msgs : list SseMsg)
  (ss : list (nat * list SseMsg)) : list (nat * list SseMsg) :=
  match ss with
  | [] => [(sid, msgs)]
  | (sid', m) :: ss' =>
      if Nat.eqb sid sid' then (sid', m ++ msgs) :: ss'
      else (sid', m) :: stream_write sid msgs ss'
  end.

Fixpoint stream_get (sid : nat) (ss : list (nat * list SseMsg)) : list SseMsg :=
  match ss with
  | [] => []
  | (sid', m) :: ss' => if Nat.eqb sid sid' then m else stream_get sid ss'
  end.

Definition sse_callback (sid : nat) (ev : SseMsg)
  (ss : list (nat * list SseMsg)) : option (list (nat * list SseMsg)) :=
  match ev with
  | SseData _ st _ =>
      Some (stream_write sid (if is_terminal st then [ev; SseDone] else [ev]) ss)
  | SseDone => Some (stream_write sid [ev] ss)
  end.

(** ** The engine state: the fields of [MockState] plus the parked drivers

    [tasks] are the pending [simulateExecution] calls: [task_stage] is the
    index in [stages] of the stage whose delay the call is awaiting. *)

Record Task := mkTask { task_no : nat; task_id : UUID; task_stage : nat }.

Record MockState := mkState {
  intents : list (UUID * StoredIntent);
  agents : list (string * StoredAgent);
  intentWatchers : list (UUID * list nat);
  streams : list (nat * list SseMsg);
  paused : bool;
  now : Timestamp;
  tasks : list Task;
  next_task : nat }.

Definition set_intents l s :=
  mkState l (agents s) (intentWatchers s) (streams s) (paused s) (now s)
    (tasks s) (next_task s).
Definition set_agents l s :=
  mkState (intents s) l (intentWatchers s) (streams s) (paused s) (now s)
    (tasks s) (next_task s).
Definition set_watchers l s :=
  mkState (intents s) (agents s) l (streams s) (paused s) (now s)
    (tasks s) (next_task s).
Definition set_streams l s :=
  mkState (intents s) (agents s) (intentWatchers s) l (paused s) (now s)
    (tasks s) (next_task s).
Definition set_paused b s :=
  mkState (intents s) (agents s) (intentWatchers s) (streams s) b (now s)
    (tasks s) (next_task s).
Definition set_now t s :=
  mkState (intents s) (agents s) (intentWatchers s) (streams s) (paused s) t
    (tasks s) (next_task s).
Definition set_tasks l s :=
  mkState (intents s) (agents s) (intentWatchers s) (streams s) (paused s)
    (now s) l (next_task s).

Fixpoint find_task (t : nat) (ts : list Task) : option Task :=
  match ts with
  | [] => None
  | tk :: ts' => if Nat.eqb t (task_no tk) then Some tk else find_task t ts'
  end.

(** Replace ([Some]) or drop ([None]) the first task numbered [t]. *)
Fixpoint update_task (t : nat) (f : Task -> option Task) (ts : list Task)
  : list Task :=
  match ts with
  | [] => []
  | tk :: ts' =>
      if Nat.eqb t (task_no tk) then
        match f tk with Some tk' => tk' :: ts' | None => ts' end
      else tk :: update_task t f ts'
  end.

Fixpoint last_opt {A} (l : list A) : option A :=
  match l with [] => None | [x] => Some x | _ :: l' => last_opt l' end.

(** ** [notifyWatchers] and [watchIntent]

    The only callbacks registered are those of the watch endpoint
    ([sse_callback]), which never throw ([sse_forEach_normal] below), so
    the [Throw] branch is never taken; [Callbacks.notifyWatchers] above is
    the same code over callbacks that may throw. *)

Definition notifyWatchers (i : UUID) (ev : SseMsg) (s : MockState) : MockState :=
  match map_get i (intentWatchers s) with
  | None => s
  | Some cbs =>
      match forEach sse_callback cbs ev (streams s) with
      | Normal ss | Throw ss => set_streams ss s
      end
  end.

Definition watchIntent (sid : nat) (i : UUID) (s : MockState) : MockState :=
  let cbs := match map_get i (intentWatchers s) with Some l => l | None => [] end in
  set_watchers (map_set i (set_add sid cbs) (intentWatchers s)) s.

(** ** [createIntent] *)

Definition simulateExecution_start (i : UUID) (s : MockState) : MockState :=
  match map_get i (intents s) with
  | None => s
  | Some _ =>
      mkState (intents s) (agents s) (intentWatchers s) (streams s) (paused s)
        (now s) (tasks s ++ [mkTask (next_task s) i 0]) (S (next_task s))
  end.

(** [fresh] is the value [crypto.randomUUID()] returns, used when the
    payload carries no id. *)
Definition createIntent (p : Intent) (fresh : UUID) (s : MockState)
  : MockState * StoredIntent :=
  let i := match intent_id p with Some x => x | None => fresh end in
  let t := now s in
  let stored :=
    mkStored i (mkIntent (Some i) (output p)) PENDING
      [mkEvent "SUBMISSION" "STARTED" "Intent received" t] t None None in
  (simulateExecution_start i (set_intents (map_set i stored (intents s)) s),
   stored).

(** ** [simulateExecution] *)

Definition stages : list (ExecutionState * string * Z) :=
  [ (VALIDATING, "Validating intent", 200%Z);
    (PLANNING, "Building execution plan", 300%Z);
    (SIMULATING, "Simulating transaction", 500%Z);
    (SUBMITTING, "Submitting to chain", 400%Z);
    (CONFIRMING, "Waiting for confirmation", 1000%Z);
    (VERIFYING, "Verifying outcome", 300%Z) ].

(** [Math.random() < 0.05]: the draw [r] (in [[0,1)]) is compared with the
    threshold as a rational. *)
Definition lt_draw (r q : Q) : bool := negb (Qle_bool q r).
Definition failure_threshold : Q := 5 # 100.

(** Lines 221-249: after the loop, complete successfully. *)
Definition complete_intent (i : UUID) (s : MockState) : MockState :=
  match map_get i (intents s) with
  | None => s
  | Some final =>
      if ExecutionState_beq (state final) CANCELLED then s
      else
        let t := now s in
        let o := mkOutcome true (Some (output (intent final), "526180000000"))
                   "5000" 25 (Some (String.append "mock-tx-" (substring 0 8 i))) in
        let ev := mkEvent "VERIFICATION" "COMPLETED"
                    "Execution completed successfully" t in
        let final' := mkStored (id final) (intent final) COMPLETED
                        (events final ++ [ev]) (createdAt final) (Some t) (Some o) in
        notifyWatchers i (SseData i COMPLETED (Some ev))
          (set_intents (map_set i final' (intents s)) s)
  end.

Definition stop_task (t : nat) (s : MockState) : MockState :=
  set_tasks (update_task t (fun _ => None) (tasks s)) s.

Definition advance_task (tk : Task) : option Task :=
  Some (mkTask (task_no tk) (task_id tk) (S (task_stage tk))).

(** The timer of task [t] fires and [Math.random()] returns [r]: one
    iteration of the [for] loop (lines 180-218), and for the last stage the
    synchronous completion that follows it. *)
Definition driver_step (t : nat) (r : Q) (s : MockState) : MockState :=
  match find_task t (tasks s) with
  | None => s
  | Some tk =>
      let i := task_id tk in
      match nth_error stages (task_stage tk) with
      | None => stop_task t s
      | Some (st, msg, _) =>
          match map_get i (intents s) with
          | None => stop_task t s
          | Some cur =>
              if ExecutionState_beq (state cur) CANCELLED then stop_task t s
              else if lt_draw r failure_threshold
                      && negb (ExecutionState_beq st VALIDATING) then
                let ev := mkEvent (state_name st) "FAILED"
                            (String.append "Simulated failure at " (state_name st))
                            (now s) in
                let cur' := mkStored (id cur) (intent cur) FAILED
                              (events cur ++ [ev]) (createdAt cur) (Some (now s))
                              (outcome cur) in
                stop_task t (notifyWatchers i (SseData i FAILED (Some ev))
                               (set_intents (map_set i cur' (intents s)) s))
              else
                let ev := mkEvent (state_name st) "STATE_CHANGE" msg (now s) in
                let cur' := mkStored (id cur) (intent cur) st
                              (events cur ++ [ev]) (createdAt cur) (completedAt cur)
                              (outcome cur) in
                let s1 := notifyWatchers i (SseData i st (Some ev))
                            (set_intents (map_set i cur' (intents s)) s) in
                if Nat.ltb (S (task_stage tk)) (length stages) then
                  set_tasks (update_task t advance_task (tasks s1)) s1
                else stop_task t (complete_intent i s1)
          end
      end
  end.

(** ** [cancelIntent] (lines 119-144) *)

Definition cancelIntent (i : UUID) (s : MockState)
  : MockState * option StoredIntent :=
  match map_get i (intents s) with
  | None => (s, None)
  | Some it =>
      if ExecutionState_beq (state it) COMPLETED
         || ExecutionState_beq (state it) FAILED then (s, Some it)
      else
        let ev := mkEvent "SUBMISSION" "CANCELLED" "Intent cancelled by user"
                    (now s) in
        let it' := mkStored (id it) (intent it) CANCELLED (events it ++ [ev])
                     (createdAt it) (Some (now s)) (outcome it) in
        (notifyWatchers i (SseData i CANCELLED (Some ev))
           (set_intents (map_set i it' (intents s)) s),
         Some it')
  end.

(** ** [pause], [resume], [kill], [getQueueStatus] (lines 307-374) *)

Definition pause (s : MockState) : MockState := set_paused true s.
Definition resume (s : MockState) : MockState := set_paused false s.

(** The first loop of [kill]: every intent whose state is not one of
    ['COMPLETED', 'FAILED', 'CANCELLED'] is set to [CANCELLED]. *)
Fixpoint kill_intents (t : Timestamp) (l : list (UUID * StoredIntent))
  : list (UUID * StoredIntent) * nat :=
  match l with
  | [] => ([], 0)
  | (k, it) :: l' =>
      let (l'', n) := kill_intents t l' in
      if is_terminal (state it) then ((k, it) :: l'', n)
      else ((k, mkStored (id it) (intent it) CANCELLED (events it)
                   (createdAt it) (Some t) (outcome it)) :: l'', S n)
  end.

Fixpoint kill_agents (t : Timestamp) (l : list (string * StoredAgent))
  : list (string * StoredAgent) * nat :=
  match l with
  | [] => ([], 0)
  | (k, a) :: l' =>
      let (l'', n) := kill_agents t l' in
      match status a with
      | A_RUNNING => ((k, mkAgent (agent_name a) A_STOPPED (Some t)) :: l'', S n)
      | _ => ((k, a) :: l'', n)
      end
  end.

Record KillResult := mkKill { executionsKilled : nat; agentsStopped : nat }.

Definition kill (s : MockState) : MockState * KillResult :=
  let (li, n) := kill_intents (now s) (intents s) in
  let (la, m) := kill_agents (now s) (agents s) in
  (set_agents la (set_intents li s), mkKill n m).

Definition is_executing (st : ExecutionState) : bool :=
  match st with
  | VALIDATING | PLANNING | SIMULATING | SUBMITTING | CONFIRMING | VERIFYING => true
  | _ => false
  end.

Record QueueStatus := mkQueue {
  pendingIntents : nat; executingIntents : nat; runningAgents : nat;
  q_paused : bool }.

Definition getQueueStatus (s : MockState) : QueueStatus :=
  mkQueue
    (length (filter (fun p => ExecutionState_beq (state (snd p)) PENDING) (intents s)))
    (length (filter (fun p => is_executing (state (snd p))) (intents s)))
    (length (filter (fun p => match status (snd p) with A_RUNNING => true | _ => false end)
                    (agents s)))
    (paused s).

(** ** [GET /api/v1/intents/:id/watch] (mock-controls.ts, lines 222-266)

    The first write, the terminal test and the subscription are taken as
    one synchronous segment.  [None]: the 404 answer. *)

Definition watch_handler (sid : nat) (i : UUID) (s : MockState)
  : option MockState :=
  match map_get i (intents s) with
  | None => None
  | Some it =>
      let first := SseData i (state it) (last_opt (events it)) in
      if is_terminal (state it) then
        Some (set_streams (stream_write sid [first; SseDone] (streams s)) s)
      else
        Some (watchIntent sid i (set_streams (stream_write sid [first] (streams s)) s))
  end.

(** ** The engine driven by its environment *)

Inductive Action :=
| Create (p : Intent) (fresh : UUID)
| DriverStep (t : nat) (r : Q)
| Cancel (i : UUID)
| Kill
| Pause
| Resume
| Watch (sid : nat) (i : UUID)
| Tick (dt : Z).

Definition step (a : Action) (s : MockState) : MockState :=
  match a with
  | Create p f => fst (createIntent p f s)
  | DriverStep t r => driver_step t r s
  | Cancel i => fst (cancelIntent i s)
  | Kill => fst (kill s)
  | Pause => pause s
  | Resume => resume s
  | Watch sid i => match watch_handler sid i s with Some s' => s' | None => s end
  | Tick dt => set_now (now s + dt)%Z s
  end.

Fixpoint run (tr : list Action) (s : MockState) : MockState :=
  match tr with
  | [] => s
  | a :: tr' => run tr' (step a s)
  end.

Definition init : MockState := mkState [] [] [] [] false 0%Z [] 0.

(** ** [listIntents] (lines 94-117) and [GET /api/v1/intents]

    [limit] and the parsed cursor are JS numbers; the ones that reach this
    code are integers or [NaN] ([parseInt] results or the default 20). *)

Inductive JsNum := JNum (z : Z) | JNaN.

Definition js_add (a b : JsNum) : JsNum :=
  match a, b with JNum x, JNum y => JNum (x + y)%Z | _, _ => JNaN end.

Definition js_lt (a : JsNum) (n : Z) : bool :=
  match a with JNum x => (x <? n)%Z | JNaN => false end.

(** [Array.prototype.slice]: ToIntegerOrInfinity maps [NaN] to 0, a
    negative index counts from the end, and both ends are clamped. *)
Definition rel_index (len : Z) (a : JsNum) : Z :=
  let x := match a with JNum x => x | JNaN => 0%Z end in
  if (x <? 0)%Z then Z.max (len + x) 0 else Z.min x len.

Definition js_slice {A} (l : list A) (start fin : JsNum) : list A :=
  let len := Z.of_nat (length l) in
  let from := rel_index len start in
  let to := rel_index len fin in
  firstn (Z.to_nat (to - from)) (skipn (Z.to_nat from) l).

(** [results.sort((a, b) => b.createdAt - a.createdAt)]: the sort is stable,
    so its result is the stable sort, newest first; computed here by
    insertion, each element going after those not older than it. *)
Fixpoint insert_desc (x : StoredIntent) (l : list StoredIntent) : list StoredIntent :=
  match l with
  | [] => [x]
  | y :: l' =>
      if (createdAt y <? createdAt x)%Z then x :: y :: l' else y :: insert_desc x l'
  end.

Definition sort_desc (l : list StoredIntent) : list StoredIntent :=
  fold_left (fun acc x => insert_desc x acc) l [].

(** [f_cursor]: [None] when the cursor is absent or empty (falsy), otherwise
    the number [parseInt] returns for it. *)
Record ListFilters := mkFilters {
  f_states : option (list string);
  f_limit : option JsNum;
  f_cursor : option JsNum }.

Record ListResult := mkList { l_intents : list StoredIntent; nextCursor : option JsNum }.

Definition filter_states (f : ListFilters) (l : list StoredIntent) : list StoredIntent :=
  match f_states f with
  | Some ((_ :: _) as sts) =>
      filter (fun it => existsb (String.eqb (state_name (state it))) sts) l
  | _ => l
  end.

Definition listIntents (f : ListFilters) (s : MockState) : ListResult :=
  let results := sort_desc (filter_states f (map snd (intents s))) in
  let limit := match f_limit f with Some l => l | None => JNum 20 end in
  let startIndex := match f_cursor f with Some c => c | None => JNum 0 end in
  let page := js_slice results startIndex (js_add startIndex limit) in
  mkList page
    (if js_lt (js_add startIndex limit) (Z.of_nat (length results))
     then Some (js_add startIndex limit) else None).

(** The handler: [limit] is [parseInt(query('limit') ?? '20')], [states] the
    comma-split [states] parameter; it answers [totalCount] as the length of
    the page. *)
Record ListQuery := mkQuery {
  q_limit : JsNum; q_cursor : option JsNum; q_states : option (list string) }.

Definition list_handler (q : ListQuery) (s : MockState) : ListResult * nat :=
  let r := listIntents (mkFilters (q_states q) (Some (q_limit q)) (q_cursor q)) s in
  (r, length (l_intents r)).

(** ** Reading an event back as a state

    The event a transition appends names the new state: the creation event
    ([STARTED]) stands for [PENDING], a [STATE_CHANGE] for the state in its
    [stage], and a [FAILED], [CANCELLED] or [COMPLETED] event for that state. *)

Definition state_of_name (n : string) : option ExecutionState :=
  find (fun st => String.eqb (state_name st) n)
    [PENDING; VALIDATING; PLANNING; SIMULATING; SUBMITTING; CONFIRMING;
     VERIFYING; COMPLETED; FAILED; CANCELLED; RETRYING].

Definition state_of_event (e : Event) : option ExecutionState :=
  if String.eqb (type e) "STARTED" then Some PENDING
  else if String.eqb (type e) "STATE_CHANGE" then state_of_name (stage e)
  else state_of_name (type e).

Definition log_states (it : StoredIntent) : list (option ExecutionState) :=
  map state_of_event (events it).

Definition success_path : list ExecutionState :=
  [PENDING; VALIDATING; PLANNING; SIMULATING; SUBMITTING; CONFIRMING;
   VERIFYING; COMPLETED].

(** ** Sample inputs *)

Definition sol : Asset := mkAsset "SOL" 9.
Definition payload (i : option UUID) : Intent := mkIntent i sol.
Definition half : Q := 1 # 2.

Definition get (i : UUID) (s : MockState) : option StoredIntent := map_get i (intents s).

(** ** Facts about the store, the tasks and the notifications *)

Lemma map_get_set_eq {V} (k : string) (v : V) m : map_get k (map_set k v m) = Some v.
Proof.
  induction m as [|[k' v'] m IH]; simpl.
  - now rewrite String.eqb_refl.
  - destruct (String.eqb k k') eqn:E; simpl.
    + rewrite E; reflexivity.
    + rewrite E; exact IH.
Qed.

Lemma map_get_set_neq {V} (k k' : string) (v : V) m :
  k <> k' -> map_get k (map_set k' v m) = map_get k m.
Proof.
  intros Hne; induction m as [|[k'' v'] m IH]; simpl.
  - apply String.eqb_neq in Hne; now rewrite Hne.
  - destruct (String.eqb k' k'') eqn:E; simpl.
    + apply String.eqb_eq in E; subst k''.
      apply String.eqb_neq in Hne; now rewrite Hne.
    + destruct (String.eqb k k''); [reflexivity | exact IH].
Qed.

Lemma sse_forEach_normal cbs ev ss :
  exists ss', forEach sse_callback cbs ev ss = Normal ss'.
Proof.
  revert ss; induction cbs as [|cb cbs IH]; intros ss; simpl; [eexists; reflexivity|].
  destruct ev; apply IH.
Qed.

Lemma notify_intents i e s : intents (notifyWatchers i e s) = intents s.
Proof.
  unfold notifyWatchers; destruct (map_get i (intentWatchers s)); [|reflexivity].
  destruct (forEach _ _ _ _); reflexivity.
Qed.

Lemma notify_tasks i e s : tasks (notifyWatchers i e s) = tasks s.
Proof.
  unfold notifyWatchers; destruct (map_get i (intentWatchers s)); [|reflexivity].
  destruct (forEach _ _ _ _); reflexivity.
Qed.

Definition tasks_for (i : UUID) (ts : list Task) : list Task :=
  filter (fun tk => String.eqb (task_id tk) i) ts.

Definition keeps_id (f : Task -> option Task) : Prop :=
  forall tk tk', f tk = Some tk' -> task_id tk' = task_id tk.

Lemma advance_keeps_id : keeps_id advance_task.
Proof. intros tk tk' H; injection H as <-; reflexivity. Qed.

Lemma drop_keeps_id : keeps_id (fun _ => None).
Proof. intros tk tk' H; discriminate. Qed.

Lemma find_task_spec t ts tk :
  find_task t ts = Some tk -> In tk ts /\ task_no tk = t.
Proof.
  induction ts as [|tk0 ts IH]; simpl; [discriminate|].
  destruct (Nat.eqb t (task_no tk0)) eqn:E.
  - intros H; injection H as <-; apply Nat.eqb_eq in E; auto.
  - intros H; destruct (IH H); auto.
Qed.

Lemma update_task_other i t f ts tk :
  keeps_id f -> find_task t ts = Some tk -> task_id tk <> i ->
  tasks_for i (update_task t f ts) = tasks_for i ts.
Proof.
  intros Hf; induction ts as [|tk0 ts IH]; simpl; [discriminate|].
  destruct (Nat.eqb t (task_no tk0)) eqn:E.
  - intros H Hne; injection H as <-.
    apply String.eqb_neq in Hne; unfold tasks_for; simpl; rewrite Hne.
    destruct (f tk0) as [tk'|] eqn:Ef; [|reflexivity].
    simpl; rewrite (Hf _ _ Ef), Hne; reflexivity.
  - intros H Hne; unfold tasks_for in *; simpl.
    destruct (String.eqb (task_id tk0) i); rewrite (IH H Hne); reflexivity.
Qed.

Lemma update_task_same i t f ts tk :
  keeps_id f -> find_task t ts = Some tk -> task_id tk = i ->
  tasks_for i ts = [tk] ->
  tasks_for i (update_task t f ts) =
    match f tk with Some tk' => [tk'] | None => [] end.
Proof.
  intros Hf; induction ts as [|tk0 ts IH]; simpl; [discriminate|].
  destruct (Nat.eqb t (task_no tk0)) eqn:E.
  - intros H Hid Hfor; injection H as <-.
    unfold tasks_for in *; simpl in Hfor.
    rewrite <- Hid, String.eqb_refl in Hfor; injection Hfor as Hrest.
    destruct (f tk0) as [tk'|] eqn:Ef; simpl.
    + rewrite (Hf _ _ Ef), <- Hid, String.eqb_refl, Hrest; reflexivity.
    + rewrite <- Hid; exact Hrest.
  - intros H Hid Hfor; unfold tasks_for in *; simpl in *.
    destruct (String.eqb (task_id tk0) i) eqn:Ei.
    + injection Hfor as -> _.
      apply find_task_spec in H as [_ Hno].
      apply Nat.eqb_neq in E; congruence.
    + exact (IH H Hid Hfor).
Qed.

Lemma find_task_for i t ts tk :
  find_task t ts = Some tk -> task_id tk = i -> In tk (tasks_for i ts).
Proof.
  intros H Hid; apply find_task_spec in H as [Hin _].
  unfold tasks_for; apply filter_In; split; [exact Hin|].
  rewrite Hid; apply String.eqb_refl.
Qed.

Lemma tasks_for_app i ts ts' :
  tasks_for i (ts ++ ts') = tasks_for i ts ++ tasks_for i ts'.
Proof. unfold tasks_for; apply filter_app. Qed.

(** The view of one intent id: its record and its parked drivers. *)
Definition view (i : UUID) (s : MockState) : option StoredIntent * list Task :=
  (get i s, tasks_for i (tasks s)).

Lemma view_set_other i j v s :
  j <> i -> view i (set_intents (map_set j v (intents s)) s) = view i s.
Proof.
  intros Hne; unfold view, get; simpl.
  rewrite map_get_set_neq by congruence; reflexivity.
Qed.

Lemma view_notify i j e s : view i (notifyWatchers j e s) = view i s.
Proof. unfold view, get; rewrite notify_intents, notify_tasks; reflexivity. Qed.

Lemma view_update_other i t f s tk :
  keeps_id f -> find_task t (tasks s) = Some tk -> task_id tk <> i ->
  view i (set_tasks (update_task t f (tasks s)) s) = view i s.
Proof.
  intros Hf Hfind Hne; unfold view, get; simpl.
  rewrite (update_task_other i t f (tasks s) tk Hf Hfind Hne); reflexivity.
Qed.

Lemma view_complete_other i j s :
  j <> i -> view i (complete_intent j s) = view i s.
Proof.
  intros Hne; unfold complete_intent.
  destruct (map_get j (intents s)) as [final|]; [|reflexivity].
  destruct (ExecutionState_beq (state final) CANCELLED); [reflexivity|].
  rewrite view_notify; apply view_set_other; exact Hne.
Qed.

Lemma notify_find_task t j e s :
  find_task t (tasks (notifyWatchers j e s)) = find_task t (tasks s).
Proof. rewrite notify_tasks; reflexivity. Qed.

Lemma complete_tasks j s : tasks (complete_intent j s) = tasks s.
Proof.
  unfold complete_intent.
  destruct (map_get j (intents s)) as [final|]; [|reflexivity].
  destruct (ExecutionState_beq (state final) CANCELLED); [reflexivity|].
  rewrite notify_tasks; reflexivity.
Qed.

(** A driver of another intent leaves the record and the drivers of [i]
    as they are. *)
Lemma view_driver_other i t r s tk :
  find_task t (tasks s) = Some tk -> task_id tk <> i ->
  view i (driver_step t r s) = view i s.
Proof.
  intros Hfind Hne; unfold driver_step; rewrite Hfind.
  assert (Hstop : forall s', tasks s' = tasks s ->
            view i (stop_task t s') = view i s').
  { intros s' Hts; unfold stop_task.
    apply (view_update_other i t _ s' tk drop_keeps_id); [congruence|exact Hne]. }
  destruct (nth_error stages (task_stage tk)) as [[[st msg] d]|];
    [|apply Hstop; reflexivity].
  destruct (map_get (task_id tk) (intents s)) as [cur|]; [|apply Hstop; reflexivity].
  destruct (ExecutionState_beq (state cur) CANCELLED); [apply Hstop; reflexivity|].
  destruct (lt_draw r failure_threshold && negb (ExecutionState_beq st VALIDATING)).
  - rewrite Hstop by (rewrite notify_tasks; reflexivity).
    rewrite view_notify; apply view_set_other; exact Hne.
  - destruct (Nat.ltb _ _).
    + rewrite (view_update_other i t _ _ tk advance_keeps_id);
        [| rewrite notify_tasks; exact Hfind | exact Hne].
      rewrite view_notify; apply view_set_other; exact Hne.
    + rewrite Hstop by (rewrite complete_tasks, notify_tasks; reflexivity).
      rewrite view_complete_other by exact Hne.
      rewrite view_notify; apply view_set_other; exact Hne.
Qed.

Definition killed (t : Timestamp) (it : StoredIntent) : StoredIntent :=
  if is_terminal (state it) then it
  else mkStored (id it) (intent it) CANCELLED (events it) (createdAt it) (Some t)
         (outcome it).

Lemma kill_intents_get i t l :
  map_get i (fst (kill_intents t l)) = option_map (killed t) (map_get i l).
Proof.
  induction l as [|[k it] l IH]; simpl; [reflexivity|].
  destruct (kill_intents t l) as [l'' n] eqn:E; simpl in IH.
  destruct (String.eqb i k) eqn:Ek; destruct (is_terminal (state it)) eqn:Ht;
    simpl; rewrite ?Ek; auto; unfold killed; rewrite ?Ht; reflexivity.
Qed.

Lemma kill_intents_count t l :
  snd (kill_intents t l) = length (filter (fun p => negb (is_terminal (state (snd p)))) l).
Proof.
  induction l as [|[k it] l IH]; simpl; [reflexivity|].
  destruct (kill_intents t l) as [l'' n] eqn:E; simpl in *.
  destruct (is_terminal (state it)); simpl; congruence.
Qed.

Lemma kill_intents_map t l :
  map snd (fst (kill_intents t l)) = map (killed t) (map snd l).
Proof.
  induction l as [|[k it] l IH]; simpl; [reflexivity|].
  destruct (kill_intents t l) as [l'' n] eqn:E; simpl in *.
  unfold killed at 1; destruct (is_terminal (state it)); simpl; congruence.
Qed.

Lemma kill_view i s : view i (fst (kill s)) = (option_map (killed (now s)) (get i s), tasks_for i (tasks s)).
Proof.
  unfold kill, view, get.
  destruct (kill_intents (now s) (intents s)) as [li n] eqn:E1.
  destruct (kill_agents (now s) (agents s)) as [la m] eqn:E2; simpl.
  rewrite <- (kill_intents_get i (now s)), E1; reflexivity.
Qed.

Lemma cancel_view_other i j s : j <> i -> view i (fst (cancelIntent j s)) = view i s.
Proof.
  intros Hne; unfold cancelIntent.
  destruct (map_get j (intents s)) as [it|]; [|reflexivity].
  destruct (_ || _); [reflexivity|]; simpl.
  rewrite view_notify; apply view_set_other; exact Hne.
Qed.

Lemma watch_view i sid j s s' : watch_handler sid j s = Some s' -> view i s' = view i s.
Proof.
  unfold watch_handler; destruct (map_get j (intents s)); [|discriminate].
  destruct (is_terminal _); intros H; injection H as <-; reflexivity.
Qed.

(** ** The success path of one intent *)

Definition InvR (v : option StoredIntent * list Task) : Prop :=
  match v with
  | (None, ts) => ts = []
  | (Some it, ts) =>
      (exists k tk, k <= 5 /\ ts = [tk] /\ task_stage tk = k /\
         log_states it = map Some (firstn (S k) success_path) /\
         state it = nth k success_path PENDING)
      \/ (ts = [] /\ log_states it = map Some success_path /\ state it = COMPLETED /\
          exists o, outcome it = Some o /\ success o = true)
  end.

Lemma lt_draw_false r : Qle failure_threshold r -> lt_draw r failure_threshold = false.
Proof. intros H; unfold lt_draw; apply Qle_bool_iff in H; rewrite H; reflexivity. Qed.

Lemma get_set_tasks i l s : get i (set_tasks l s) = get i s.
Proof. reflexivity. Qed.

Lemma get_notify i j e s : get i (notifyWatchers j e s) = get i s.
Proof. unfold get; rewrite notify_intents; reflexivity. Qed.

Lemma get_set_intents_eq i v s : get i (set_intents (map_set i v (intents s)) s) = Some v.
Proof. unfold get; apply map_get_set_eq. Qed.

Lemma tasks_set_tasks l s : tasks (set_tasks l s) = l.
Proof. reflexivity. Qed.

Lemma tasks_set_intents l s : tasks (set_intents l s) = tasks s.
Proof. reflexivity. Qed.

Definition completed_record (i : UUID) (t : Timestamp) (it : StoredIntent) : StoredIntent :=
  mkStored (id it) (intent it) COMPLETED
    (events it ++ [mkEvent "VERIFICATION" "COMPLETED" "Execution completed successfully" t])
    (createdAt it) (Some t)
    (Some (mkOutcome true (Some (output (intent it), "526180000000")) "5000" 25
             (Some (String.append "mock-tx-" (substring 0 8 i))))).

Lemma complete_intent_get i s it :
  get i s = Some it -> ExecutionState_beq (state it) CANCELLED = false ->
  get i (complete_intent i s) = Some (completed_record i (now s) it).
Proof.
  intros H Hc; unfold complete_intent; unfold get in H; rewrite H, Hc.
  rewrite get_notify, get_set_intents_eq; reflexivity.
Qed.

Lemma inv_driver_same i t r s tk :
  find_task t (tasks s) = Some tk -> task_id tk = i ->
  (1 <= task_stage tk -> Qle failure_threshold r) ->
  InvR (view i s) -> InvR (view i (driver_step t r s)).
Proof.
  intros Hf Hid Hr Hinv.
  pose proof (find_task_for i t _ _ Hf Hid) as Hin.
  unfold view in *; destruct (get i s) as [it|] eqn:Hget.
  2: { simpl in Hinv; rewrite Hinv in Hin; destruct Hin. }
  destruct Hinv as [(k & tk0 & Hk & Hts & Hst & Hlog & Hstate) | (Hts & _)].
  2: { rewrite Hts in Hin; destruct Hin. }
  rewrite Hts in Hin; destruct Hin as [-> | []].
  unfold driver_step; rewrite Hf, Hst, Hid; unfold get in Hget; rewrite Hget.
  rewrite Hst in Hr.
  destruct k as [|[|[|[|[|[|k]]]]]]; [| | | | | | lia];
    simpl in Hstate; rewrite Hstate;
    cbn -[InvR notifyWatchers map_set map_get tasks_for update_task lt_draw get
          log_states stop_task complete_intent set_tasks set_intents];
    [ rewrite andb_false_r
    | rewrite (lt_draw_false r (Hr ltac:(lia))) .. ];
    cbn -[InvR notifyWatchers map_set map_get tasks_for update_task lt_draw get
          log_states stop_task complete_intent set_tasks set_intents].
  1-5: rewrite get_set_tasks, get_notify, get_set_intents_eq, tasks_set_tasks,
      notify_tasks, tasks_set_intents;
    rewrite (update_task_same i t advance_task (tasks s) tk advance_keeps_id Hf Hid Hts);
    cbn [advance_task]; left; eexists _, _; split; [|split; [reflexivity|]];
      [|split; [simpl; rewrite Hst; reflexivity|]]; [lia|];
      split; [unfold log_states in *; cbn [events]; rewrite map_app, Hlog; reflexivity
             | reflexivity].
  unfold stop_task.
  rewrite get_set_tasks, tasks_set_tasks, complete_tasks, notify_tasks, tasks_set_intents.
  rewrite (update_task_same i t _ (tasks s) tk drop_keeps_id Hf Hid Hts).
  rewrite (complete_intent_get i _ _) by
    (rewrite ?get_notify, ?get_set_intents_eq; reflexivity).
  right; split; [reflexivity|]; split;
    [unfold log_states in *; cbn [events completed_record];
     rewrite !map_app, Hlog; reflexivity|].
  split; [reflexivity|]; eexists; split; reflexivity.
Qed.

(** What the environment of one intent [i] refrains from: it never cancels
    or kills [i] before [i] is completed, never gives the id [i] to another
    create while a driver of [i] is parked, and the draws of the driver of
    [i] at the stages after [VALIDATING] are never below the threshold. *)

Definition no_task_for (i : UUID) (s : MockState) : Prop := tasks_for i (tasks s) = [].

Definition finished_or_absent (i : UUID) (s : MockState) : Prop :=
  forall it, get i s = Some it -> state it = COMPLETED.

Definition created_id (p : Intent) (fresh : UUID) : UUID :=
  match intent_id p with Some x => x | None => fresh end.

Definition ok_action (i : UUID) (s : MockState) (a : Action) : Prop :=
  match a with
  | Create p f => created_id p f = i -> no_task_for i s
  | DriverStep t r =>
      forall tk, find_task t (tasks s) = Some tk -> task_id tk = i ->
        1 <= task_stage tk -> Qle failure_threshold r
  | Cancel j => j = i -> finished_or_absent i s
  | Kill => finished_or_absent i s
  | _ => True
  end.

Fixpoint ok_trace (i : UUID) (tr : list Action) (s : MockState) : Prop :=
  match tr with
  | [] => True
  | a :: tr' => ok_action i s a /\ ok_trace i tr' (step a s)
  end.

Definition new_record (i : UUID) (p : Intent) (t : Timestamp) : StoredIntent :=
  mkStored i (mkIntent (Some i) (output p)) PENDING
    [mkEvent "SUBMISSION" "STARTED" "Intent received" t] t None None.

Lemma create_view i p f s :
  view i (fst (createIntent p f s)) =
    if String.eqb (created_id p f) i
    then (Some (new_record i p (now s)),
          tasks_for i (tasks s) ++ [mkTask (next_task s) i 0])
    else view i s.
Proof.
  unfold createIntent, simulateExecution_start; cbn [fst intents set_intents].
  rewrite map_get_set_eq; unfold view, get; cbn [intents tasks].
  rewrite tasks_for_app; fold (created_id p f).
  destruct (String.eqb (created_id p f) i) eqn:E.
  - apply String.eqb_eq in E; rewrite E, map_get_set_eq.
    unfold tasks_for at 2; simpl; rewrite String.eqb_refl; reflexivity.
  - apply String.eqb_neq in E; rewrite map_get_set_neq by congruence.
    unfold tasks_for at 2; simpl; apply String.eqb_neq in E.
    rewrite E, app_nil_r; reflexivity.
Qed.

Lemma inv_step i s a :
  ok_action i s a -> InvR (view i s) -> InvR (view i (step a s)).
Proof.
  intros Hok Hinv; destruct a as [p f|t r|j| | | |sid j|dt];
    unfold ok_action in Hok; unfold step.
  - (* Create *)
    rewrite create_view; destruct (String.eqb (created_id p f) i) eqn:E; [|exact Hinv].
    apply String.eqb_eq in E; unfold no_task_for in Hok; rewrite (Hok E).
    left; exists 0, (mkTask (next_task s) i 0); split; [lia|]; repeat split.
  - (* DriverStep *)
    destruct (find_task t (tasks s)) as [tk|] eqn:Hf.
    + destruct (String.eqb (task_id tk) i) eqn:E.
      * apply String.eqb_eq in E.
        apply (inv_driver_same i t r s tk Hf E); [|exact Hinv].
        intros H1; exact (Hok tk eq_refl E H1).
      * apply String.eqb_neq in E; rewrite (view_driver_other i t r s tk Hf E); exact Hinv.
    + unfold driver_step; rewrite Hf; exact Hinv.
  - (* Cancel *)
    destruct (String.eqb j i) eqn:E.
    + apply String.eqb_eq in E; subst j.
      unfold cancelIntent; unfold finished_or_absent, get in Hok.
      destruct (map_get i (intents s)) as [it|] eqn:Hg; [|exact Hinv].
      rewrite (Hok eq_refl it eq_refl); exact Hinv.
    + apply String.eqb_neq in E; rewrite cancel_view_other by exact E; exact Hinv.
  - (* Kill *)
    rewrite kill_view; unfold view in Hinv; unfold finished_or_absent in Hok.
    destruct (get i s) as [it|]; [|exact Hinv].
    simpl; unfold killed; rewrite (Hok it eq_refl); exact Hinv.
  - exact Hinv.
  - exact Hinv.
  - destruct (watch_handler sid j s) eqn:W; [|exact Hinv].
    rewrite (watch_view i sid j s m W); exact Hinv.
  - exact Hinv.
Qed.

Lemma inv_run i tr s :
  ok_trace i tr s -> InvR (view i s) -> InvR (view i (run tr s)).
Proof.
  revert s; induction tr as [|a tr IH]; intros s Hok Hinv; simpl in *; [exact Hinv|].
  destruct Hok as [Ha Hrest]; exact (IH _ Hrest (inv_step i s a Ha Hinv)).
Qed.

(** ** Sample runs *)

(** Two creates under one caller-supplied id, with the first driver still
    parked: the old driver goes on with the new record. *)
Definition reuse_trace : list Action :=
  [Create (payload (Some "a")) "g"; DriverStep 0 half;
   Create (payload (Some "a")) "h"; DriverStep 0 half].

Definition success_trace : list Action :=
  [Create (payload None) "a"; DriverStep 0 half; DriverStep 0 half;
   DriverStep 0 half; DriverStep 0 half; DriverStep 0 half; DriverStep 0 half].

Ltac ok_trace_tac :=
  unfold failure_threshold, half;
  simpl; repeat split; intros; try reflexivity; try discriminate;
  unfold Qle; simpl; lia.

(** * Claims *)

(** C1 (amended).  For an intent created under an id that no other create
    takes while its driver runs, that is never cancelled or killed before it
    completes, and whose driver never draws below 0.05 after [VALIDATING]:
    the states logged for the record are always a prefix of
    PENDING, VALIDATING, PLANNING, SIMULATING, SUBMITTING, CONFIRMING,
    VERIFYING, COMPLETED ending in its current state; when it is COMPLETED
    the log is the whole list and the outcome has [success = true]; and
    once its driver has finished, it is COMPLETED. *)
Theorem intent_success_path i s0 tr :
  get i s0 = None -> no_task_for i s0 -> ok_trace i tr s0 ->
  forall it, get i (run tr s0) = Some it ->
    (exists k, log_states it = map Some (firstn (S k) success_path) /\
               state it = nth k success_path PENDING) /\
    (state it = COMPLETED ->
       log_states it = map Some success_path /\
       exists o, outcome it = Some o /\ success o = true) /\
    (no_task_for i (run tr s0) -> state it = COMPLETED).
Proof.
  intros Hg Hno Hok it Hit.
  assert (Hinv : InvR (view i s0)) by (unfold view; rewrite Hg; exact Hno).
  pose proof (inv_run i tr s0 Hok Hinv) as Hend.
  unfold view in Hend; rewrite Hit in Hend.
  destruct Hend as [(k & tk & Hk & Hts & _ & Hlog & Hst) | (Hts & Hlog & Hst & Ho)].
  - split; [exists k; split; assumption|].
    split.
    + intros Hc; rewrite Hst in Hc.
      destruct k as [|[|[|[|[|[|k]]]]]]; try lia; discriminate.
    + unfold no_task_for; rewrite Hts; discriminate.
  - split; [exists 7; split; [exact Hlog | exact Hst]|].
    split; [intros _; split; assumption | intros _; exact Hst].
Qed.

Lemma intent_success_path_witness :
  ok_trace "a" success_trace init /\
  forall it, get "a" (run success_trace init) = Some it ->
    (exists k, log_states it = map Some (firstn (S k) success_path) /\
               state it = nth k success_path PENDING) /\
    (state it = COMPLETED ->
       log_states it = map Some success_path /\
       exists o, outcome it = Some o /\ success o = true) /\
    (no_task_for "a" (run success_trace init) -> state it = COMPLETED).
Proof.
  split; [ok_trace_tac|].
  apply intent_success_path; [reflexivity | reflexivity | ok_trace_tac].
Defined.

(** C1, as stated, fails: the second intent created under the id ["a"] is
    never cancelled or killed and no draw is below 0.05, yet its log reads
    PENDING, PLANNING, which is no prefix of the success path. *)
Lemma intent_success_path_reused_id :
  option_map log_states (get "a" (run reuse_trace init)) =
    Some [Some PENDING; Some PLANNING] /\
  forall k, map Some (firstn k success_path) <> [Some PENDING; Some PLANNING].
Proof.
  split; [reflexivity|].
  intros k; destruct k as [|[|[|k]]]; simpl; congruence.
Qed.

(** A watched intent that is killed while still [PENDING]. *)
Definition kill_trace : list Action :=
  [Create (payload None) "a"; Watch 0 "a"; Kill].

Definition started_event : Event :=
  mkEvent "SUBMISSION" "STARTED" "Intent received" 0%Z.

(** C2 (code_bug).  [kill] moves an intent to [CANCELLED] without
    appending an event and without notifying: afterwards the record reads
    [CANCELLED] while the last entry of its log is still the creation event
    ([PENDING]), and its subscriber has received nothing since it connected. *)
Theorem kill_breaks_log_consistency :
  let s := run kill_trace init in
  option_map state (get "a" s) = Some CANCELLED /\
  option_map (fun it => last_opt (log_states it)) (get "a" s) = Some (Some (Some PENDING)) /\
  option_map (fun it => length (events it)) (get "a" s) = Some 1 /\
  stream_get 0 (streams s) = [SseData "a" PENDING (Some started_event)].
Proof. repeat split; reflexivity. Qed.

(** C4 (code_bug).  The guard of [cancelIntent] lets a [CANCELLED] intent
    through: a second cancel appends a second cancellation event, moves
    [completedAt] and notifies again, though [finalState] stays
    [CANCELLED]. *)
Theorem cancel_twice_mutates_log :
  let s1 := run [Create (payload None) "a"; Cancel "a"] init in
  let s2 := run [Tick 5; Cancel "a"] s1 in
  option_map state (get "a" s1) = Some CANCELLED /\
  option_map state (snd (cancelIntent "a" (step (Tick 5) s1))) = Some CANCELLED /\
  option_map (fun it => length (events it)) (get "a" s1) = Some 2 /\
  option_map (fun it => length (events it)) (get "a" s2) = Some 3 /\
  option_map completedAt (get "a" s1) = Some (Some 0%Z) /\
  option_map completedAt (get "a" s2) = Some (Some 5%Z).
Proof. repeat split; reflexivity. Qed.

(** On a [COMPLETED] or [FAILED] intent, [cancelIntent] is a no-op. *)
Lemma cancel_finished_noop i s it :
  get i s = Some it -> state it = COMPLETED \/ state it = FAILED ->
  cancelIntent i s = (s, Some it).
Proof.
  intros Hg Hst; unfold cancelIntent; unfold get in Hg; rewrite Hg.
  destruct Hst as [-> | ->]; reflexivity.
Qed.

(** C5 (code_bug).  [kill] counts each non-terminal intent once and sets
    it to [CANCELLED], but leaves every event log as it was and writes to no
    subscriber. *)
Theorem kill_no_event_no_notify s :
  executionsKilled (snd (kill s)) =
    length (filter (fun p => negb (is_terminal (state (snd p)))) (intents s)) /\
  map snd (intents (fst (kill s))) = map (killed (now s)) (map snd (intents s)) /\
  map (fun p => events (snd p)) (intents (fst (kill s))) =
    map (fun p => events (snd p)) (intents s) /\
  streams (fst (kill s)) = streams s /\
  intentWatchers (fst (kill s)) = intentWatchers s.
Proof.
  unfold kill.
  pose proof (kill_intents_count (now s) (intents s)) as Hc.
  pose proof (kill_intents_map (now s) (intents s)) as Hm.
  destruct (kill_intents (now s) (intents s)) as [li n] eqn:E1.
  destruct (kill_agents (now s) (agents s)) as [la m] eqn:E2; simpl in *.
  split; [exact Hc|]; split; [exact Hm|].
  split; [|split; reflexivity].
  rewrite <- (map_map snd events), Hm, <- (map_map snd events), !map_map.
  apply map_ext; intros [k it]; unfold killed; simpl.
  destruct (is_terminal (state it)); reflexivity.
Qed.

(** C7 (code_bug).  A subscriber of a non-terminal intent that is then
    killed gets the first event and nothing more: no [CANCELLED] event and
    no [[DONE]] marker, also after the parked driver has run, though the
    intent is terminal. *)
Theorem watch_killed_no_done :
  let s := run (kill_trace ++ [DriverStep 0 half]) init in
  option_map state (get "a" s) = Some CANCELLED /\
  tasks s = [] /\
  stream_get 0 (streams s) = [SseData "a" PENDING (Some started_event)].
Proof. repeat split; reflexivity. Qed.

(** Setting the paused flag commutes with every piece of the driver. *)
Lemma notify_paused i e s b :
  notifyWatchers i e (set_paused b s) = set_paused b (notifyWatchers i e s).
Proof.
  unfold notifyWatchers; simpl.
  destruct (map_get i (intentWatchers s)); [|reflexivity].
  destruct (forEach _ _ _ _); reflexivity.
Qed.

Lemma complete_paused i s b :
  complete_intent i (set_paused b s) = set_paused b (complete_intent i s).
Proof.
  unfold complete_intent; simpl.
  destruct (map_get i (intents s)) as [final|]; [|reflexivity].
  destruct (ExecutionState_beq (state final) CANCELLED); [reflexivity|].
  rewrite <- notify_paused; reflexivity.
Qed.

Lemma tasks_paused s b : tasks (set_paused b s) = tasks s.
Proof. reflexivity. Qed.

Lemma stop_paused t s b : stop_task t (set_paused b s) = set_paused b (stop_task t s).
Proof. reflexivity. Qed.

Lemma set_intents_paused l s b :
  set_intents l (set_paused b s) = set_paused b (set_intents l s).
Proof. reflexivity. Qed.

Lemma set_tasks_paused l s b :
  set_tasks l (set_paused b s) = set_paused b (set_tasks l s).
Proof. reflexivity. Qed.

Lemma driver_step_paused t r s b :
  driver_step t r (set_paused b s) = set_paused b (driver_step t r s).
Proof.
  unfold driver_step.
  change (tasks (set_paused b s)) with (tasks s).
  change (intents (set_paused b s)) with (intents s).
  change (now (set_paused b s)) with (now s).
  destruct (find_task t (tasks s)) as [tk|]; [|reflexivity].
  destruct (nth_error stages (task_stage tk)) as [[[st msg] d]|]; [|reflexivity].
  destruct (map_get (task_id tk) (intents s)) as [cur|]; [|reflexivity].
  destruct (ExecutionState_beq (state cur) CANCELLED); [reflexivity|].
  destruct (_ && _).
  - rewrite set_intents_paused, notify_paused; reflexivity.
  - rewrite set_intents_paused, notify_paused, tasks_paused.
    destruct (Nat.ltb _ _); [reflexivity|].
    rewrite complete_paused; reflexivity.
Qed.

(** C3 (corrected), counterexample.  Paused, an intent is created and its
    first stage delay elapses: the driver moves it to [VALIDATING]. *)
Lemma paused_driver_advances :
  let s := run [Pause; Create (payload None) "a"; Tick 200; DriverStep 0 half] init in
  paused s = true /\ option_map state (get "a" s) = Some VALIDATING.
Proof. split; reflexivity. Qed.

(** C3 (amended).  The driver never reads the paused flag: [pause] and
    [resume] only set it, [getQueueStatus] reports it, and a driver step
    does the same thing whether the flag is set or not (and leaves it
    alone). *)
Theorem pause_not_consulted t r s b :
  pause s = set_paused true s /\ resume s = set_paused false s /\
  q_paused (getQueueStatus s) = paused s /\
  driver_step t r (set_paused b s) = set_paused b (driver_step t r s) /\
  paused (driver_step t r s) = paused s.
Proof.
  split; [reflexivity|]; split; [reflexivity|]; split; [reflexivity|].
  split; [apply driver_step_paused|].
  destruct s as [a b0 c d e f g h].
  change (mkState a b0 c d e f g h) with (set_paused e (mkState a b0 c d false f g h)).
  rewrite driver_step_paused; reflexivity.
Qed.

Lemma state_beq_false x y : x <> y -> ExecutionState_beq x y = false.
Proof. destruct x, y; simpl; congruence. Qed.

Lemma lt_draw_true r : Qlt r failure_threshold -> lt_draw r failure_threshold = true.
Proof.
  intros H; unfold lt_draw.
  destruct (Qle_bool failure_threshold r) eqn:E; [|reflexivity].
  apply Qle_bool_iff in E; exfalso; exact (Qlt_not_le _ _ H E).
Qed.

(** C6.  When the timer of a driver fires at a stage other than
    [VALIDATING], on an intent that is not cancelled, and the draw is below
    0.05, the intent becomes [FAILED] with one appended event of type
    [FAILED] whose message is ["Simulated failure at <stage>"], and the
    driver is dropped.  At the [VALIDATING] stage the intent becomes
    [VALIDATING] whatever the draw. *)
Theorem injected_failure t r s tk cur st msg d :
  find_task t (tasks s) = Some tk ->
  get (task_id tk) s = Some cur -> state cur <> CANCELLED ->
  nth_error stages (task_stage tk) = Some (st, msg, d) ->
  (Qlt r failure_threshold -> st <> VALIDATING ->
     get (task_id tk) (driver_step t r s) =
       Some (mkStored (id cur) (intent cur) FAILED
               (events cur ++
                  [mkEvent (state_name st) "FAILED"
                     (String.append "Simulated failure at " (state_name st)) (now s)])
               (createdAt cur) (Some (now s)) (outcome cur)) /\
     tasks (driver_step t r s) = update_task t (fun _ => None) (tasks s)) /\
  (st = VALIDATING ->
     exists cur', get (task_id tk) (driver_step t r s) = Some cur' /\
                  state cur' = VALIDATING).
Proof.
  intros Hf Hg Hnc Hst; unfold get in Hg.
  unfold driver_step; rewrite Hf, Hst, Hg, (state_beq_false _ _ Hnc).
  split.
  - intros Hr Hv.
    rewrite (lt_draw_true r Hr), (state_beq_false _ _ Hv); simpl andb; cbv iota.
    unfold stop_task; rewrite get_set_tasks, get_notify, get_set_intents_eq.
    rewrite tasks_set_tasks, notify_tasks, tasks_set_intents; split; reflexivity.
  - intros ->.
    assert (Hk : task_stage tk = 0).
    { destruct (task_stage tk) as [|[|[|[|[|[|k]]]]]]; simpl in Hst; try discriminate;
        [reflexivity|].
      destruct k; discriminate. }
    rewrite Hk, andb_false_r; change (Nat.ltb 1 (length stages)) with true; cbv iota.
    rewrite get_set_tasks, get_notify, get_set_intents_eq.
    eexists; split; reflexivity.
Qed.

Lemma injected_failure_witness :
  let s := run [Create (payload None) "a"; DriverStep 0 half] init in
  (find_task 0 (tasks s) = Some (mkTask 0 "a" 1) /\
   get "a" s <> None /\
   option_map state (get "a" s) = Some VALIDATING) /\
  option_map state (get "a" (driver_step 0 (1 # 100) s)) = Some FAILED.
Proof.
  split; [split; [reflexivity | split; [discriminate | reflexivity]]|].
  destruct (injected_failure 0 (1 # 100)
              (run [Create (payload None) "a"; DriverStep 0 half] init)
              (mkTask 0 "a" 1)
              (mkStored "a" (mkIntent (Some "a") sol) VALIDATING
                 [started_event;
                  mkEvent "VALIDATING" "STATE_CHANGE" "Validating intent" 0%Z]
                 0%Z None None)
              PLANNING "Building execution plan" 300%Z)
    as [Hfail _]; [reflexivity | reflexivity | discriminate | reflexivity |].
  destruct (Hfail ltac:(unfold Qlt, failure_threshold; simpl; lia)
                  ltac:(discriminate)) as [Hg _].
  cbn [task_id] in Hg; rewrite Hg; reflexivity.
Defined.


(** Each callback of [cbs], in order, returns normally. *)
Fixpoint run_all {Cb Ev Acc} (run : Cb -> Ev -> Acc -> option Acc)
  (cbs : list Cb) (ev : Ev) (acc : Acc) : option Acc :=
  match cbs with
  | [] => Some acc
  | cb :: rest =>
      match run cb ev acc with
      | None => None
      | Some acc' => run_all run rest ev acc'
      end
  end.

Lemma forEach_run_all {Cb Ev Acc} (run : Cb -> Ev -> Acc -> option Acc) cbs ev acc :
  forall acc', run_all run cbs ev acc = Some acc' -> forEach run cbs ev acc = Normal acc'.
Proof.
  revert acc; induction cbs as [|c cbs IH]; intros a a' H; simpl in *.
  - congruence.
  - destruct (run c ev a); [exact (IH _ _ H) | discriminate].
Qed.

Lemma forEach_throw {Cb Ev Acc} (run : Cb -> Ev -> Acc -> option Acc) pre cb post ev acc acc1 :
  run_all run pre ev acc = Some acc1 -> run cb ev acc1 = None ->
  forEach run (pre ++ cb :: post) ev acc = Throw acc1.
Proof.
  revert acc; induction pre as [|c pre IH]; intros a H Hcb; simpl in *.
  - injection H as <-; rewrite Hcb; reflexivity.
  - destruct (run c ev a); [exact (IH _ H Hcb) | discriminate].
Qed.

Lemma set_add_new x l : ~ In x l -> set_add x l = l ++ [x].
Proof.
  intros Hn; unfold set_add.
  destruct (existsb (Nat.eqb x) l) eqn:E; [|reflexivity].
  apply existsb_exists in E; destruct E as [y [Hy Ey]].
  apply Nat.eqb_eq in Ey; subst y; contradiction.
Qed.

Lemma register_all_some i cbs w old :
  map_get i w = Some old -> NoDup (old ++ cbs) ->
  map_get i (register_all i cbs w) = Some (old ++ cbs).
Proof.
  revert w old; induction cbs as [|cb cbs IH]; intros w old Hw Hnd; simpl.
  - rewrite app_nil_r; exact Hw.
  - unfold register_all in IH |- *; simpl.
    replace (old ++ cb :: cbs) with ((old ++ [cb]) ++ cbs) by (rewrite <- app_assoc; reflexivity).
    apply IH; [|rewrite <- app_assoc; exact Hnd].
    unfold Callbacks.watchIntent; rewrite Hw, Hw, map_get_set_eq.
    rewrite set_add_new; [reflexivity|].
    intros Hin; apply NoDup_remove_2 in Hnd; apply Hnd, in_or_app; left; exact Hin.
Qed.

Lemma register_all_get i cbs w :
  map_get i w = None -> NoDup cbs ->
  map_get i (register_all i cbs w) = match cbs with [] => None | _ => Some cbs end.
Proof.
  intros Hw Hnd; destruct cbs as [|cb cbs]; [exact Hw|].
  unfold register_all; simpl.
  apply (register_all_some i cbs _ [cb]); [|exact Hnd].
  unfold Callbacks.watchIntent; rewrite Hw, map_get_set_eq, map_get_set_eq; reflexivity.
Qed.

Lemma notify_registered {Ev Acc} (run : nat -> Ev -> Acc -> option Acc) i cbs w ev acc :
  map_get i w = None -> NoDup cbs ->
  Callbacks.notifyWatchers run i ev (register_all i cbs w) acc = forEach run cbs ev acc.
Proof.
  intros Hw Hnd; unfold Callbacks.notifyWatchers.
  rewrite (register_all_get i cbs w Hw Hnd); destruct cbs; reflexivity.
Qed.

(** Callbacks numbered by registration; callback 0 throws, the others
    record that they received the event. *)
Definition demo_callback (cb : nat) (ev : nat) (acc : list nat) : option (list nat) :=
  if Nat.eqb cb 0 then None else Some (acc ++ [cb]).

(** C8 (corrected), counterexample.  Callback 0 (it throws) is registered
    before callback 1: notifying the id throws, and callback 1 never
    receives the event.  Registered the other way round, both run. *)
Lemma notify_throw_stops_delivery :
  Callbacks.notifyWatchers demo_callback "a" 7 (register_all "a" [0; 1] []) [] = Throw [] /\
  Callbacks.notifyWatchers demo_callback "a" 7 (register_all "a" [1; 2] []) [] = Normal [1; 2].
Proof. split; reflexivity. Qed.

(** C8 (amended).  For callbacks registered under an id that had none,
    [notifyWatchers] calls them in registration order, synchronously: when
    they all return, each has run once, in that order; when one throws, the
    exception leaves [notifyWatchers] with the effects of the callbacks
    before it, and the later ones are not called. *)
Theorem notify_in_order {Ev Acc} (run : nat -> Ev -> Acc -> option Acc)
  i cbs w ev acc :
  map_get i w = None -> NoDup cbs ->
  (forall acc', run_all run cbs ev acc = Some acc' ->
     Callbacks.notifyWatchers run i ev (register_all i cbs w) acc = Normal acc') /\
  (forall pre cb post acc1, cbs = pre ++ cb :: post ->
     run_all run pre ev acc = Some acc1 -> run cb ev acc1 = None ->
     Callbacks.notifyWatchers run i ev (register_all i cbs w) acc = Throw acc1).
Proof.
  intros Hw Hnd; rewrite (notify_registered run i cbs w ev acc Hw Hnd).
  split.
  - apply forEach_run_all.
  - intros pre cb post acc1 ->; apply forEach_throw.
Qed.

Lemma notify_in_order_witness :
  map_get "a" [] = @None (list nat) /\ NoDup [1; 0; 2] /\
  Callbacks.notifyWatchers demo_callback "a" 7 (register_all "a" [1; 0; 2] []) [] = Throw [1].
Proof.
  assert (Hnd : NoDup [1; 0; 2]).
  { repeat constructor; simpl; intuition discriminate. }
  split; [reflexivity|]; split; [exact Hnd|].
  destruct (notify_in_order demo_callback "a" [1; 0; 2] [] 7 [] eq_refl Hnd) as [_ H].
  apply (H [1] 0 [2] [1]); reflexivity.
Defined.

(** Watchers are kept in registration order. *)
Lemma watchIntent_order sid i s :
  existsb (Nat.eqb sid) (match map_get i (intentWatchers s) with Some l => l | None => [] end) = false ->
  map_get i (intentWatchers (watchIntent sid i s)) =
    Some ((match map_get i (intentWatchers s) with Some l => l | None => [] end) ++ [sid]).
Proof.
  intros H; unfold watchIntent, set_add; rewrite H; simpl.
  apply map_get_set_eq.
Qed.

(** ** Facts about [kill] and [listIntents] *)

Lemma kill_intents_terminal t l p :
  In p (fst (kill_intents t l)) -> is_terminal (state (snd p)) = true.
Proof.
  induction l as [|[k it] l IH]; simpl; [intros []|].
  destruct (kill_intents t l) as [l'' n] eqn:E; simpl in *.
  destruct (is_terminal (state it)) eqn:Ht; simpl;
    intros [<- | Hin]; auto.
Qed.

Lemma filter_all_false {A} (f : A -> bool) l :
  (forall x, In x l -> f x = false) -> filter f l = [].
Proof.
  induction l as [|x l IH]; intros H; simpl; [reflexivity|].
  rewrite (H x (or_introl eq_refl)); apply IH; intros y Hy; apply H; right; exact Hy.
Qed.

Lemma kill_intents_of s : intents (fst (kill s)) = fst (kill_intents (now s) (intents s)).
Proof.
  unfold kill; destruct (kill_intents (now s) (intents s)) as [li n].
  destruct (kill_agents (now s) (agents s)) as [la m]; reflexivity.
Qed.

Lemma insert_desc_length x l : length (insert_desc x l) = S (length l).
Proof.
  induction l as [|y l IH]; simpl; [reflexivity|].
  destruct (createdAt y <? createdAt x)%Z; simpl; congruence.
Qed.

Lemma sort_desc_length l : length (sort_desc l) = length l.
Proof.
  unfold sort_desc.
  assert (G : forall acc, length (fold_left (fun acc x => insert_desc x acc) l acc) =
                          length l + length acc).
  { induction l as [|x l IH]; intros acc; simpl; [reflexivity|].
    rewrite IH, insert_desc_length; lia. }
  rewrite G; simpl; lia.
Qed.

Lemma js_slice_length {A B} (l : list A) (l' : list B) a b :
  length l = length l' -> length (js_slice l a b) = length (js_slice l' a b).
Proof.
  intros H; unfold js_slice; rewrite !length_firstn, !length_skipn, H; reflexivity.
Qed.

(** C9 (corrected), counterexample.  With one [PENDING] intent, the list
    query filtered on [PENDING] reports [totalCount = 1] before [kill] and
    0 after it. *)
Lemma kill_shrinks_filtered_list :
  let s := run [Create (payload None) "a"] init in
  let q := mkQuery (JNum 20) None (Some ["PENDING"]) in
  snd (list_handler q s) = 1 /\ snd (list_handler q (fst (kill s))) = 0.
Proof. split; reflexivity. Qed.

(** C9 (amended).  After [kill], [getQueueStatus] reports no pending and
    no executing intent, and every list query without a state filter
    reports the same [totalCount] as before the kill. *)
Theorem kill_queue_and_list s :
  pendingIntents (getQueueStatus (fst (kill s))) = 0 /\
  executingIntents (getQueueStatus (fst (kill s))) = 0 /\
  forall q, q_states q = None ->
    snd (list_handler q (fst (kill s))) = snd (list_handler q s).
Proof.
  unfold getQueueStatus; cbn [pendingIntents executingIntents].
  rewrite kill_intents_of.
  split; [|split].
  - rewrite filter_all_false; [reflexivity|].
    intros p Hp; pose proof (kill_intents_terminal _ _ _ Hp) as Ht.
    destruct (state (snd p)); simpl in *; congruence.
  - rewrite filter_all_false; [reflexivity|].
    intros p Hp; pose proof (kill_intents_terminal _ _ _ Hp) as Ht.
    destruct (state (snd p)); simpl in *; congruence.
  - intros q Hq; unfold list_handler, listIntents, filter_states; cbn [f_states l_intents].
    rewrite Hq, kill_intents_of, kill_intents_map.
    apply js_slice_length; rewrite !sort_desc_length, !length_map; reflexivity.
Qed.

(** Newest first: each element is not older than the next. *)
Fixpoint sorted_desc (l : list StoredIntent) : Prop :=
  match l with
  | x :: ((y :: _) as t) => (createdAt y <= createdAt x)%Z /\ sorted_desc t
  | _ => True
  end.

Lemma sorted_desc_tail x l : sorted_desc (x :: l) -> sorted_desc l.
Proof. destruct l; simpl; tauto. Qed.

Lemma insert_desc_sorted x l y :
  sorted_desc (y :: l) -> (createdAt x <= createdAt y)%Z ->
  sorted_desc (y :: insert_desc x l).
Proof.
  revert y; induction l as [|z l IH]; intros y Hs Hxy; simpl in *.
  - split; [exact Hxy | exact I].
  - destruct Hs as [Hzy Hs].
    destruct (createdAt z <? createdAt x)%Z eqn:E.
    + apply Z.ltb_lt in E; simpl; repeat split; try lia; exact Hs.
    + apply Z.ltb_ge in E; split; [exact Hzy|]; apply IH; [exact Hs | lia].
Qed.

Lemma insert_desc_sorted_any x l : sorted_desc l -> sorted_desc (insert_desc x l).
Proof.
  destruct l as [|y l]; simpl; [tauto|].
  intros Hs; destruct (createdAt y <? createdAt x)%Z eqn:E.
  - apply Z.ltb_lt in E; split; [lia | exact Hs].
  - apply Z.ltb_ge in E; apply insert_desc_sorted; assumption.
Qed.

Lemma sort_desc_sorted l : sorted_desc (sort_desc l).
Proof.
  unfold sort_desc.
  assert (G : forall acc, sorted_desc acc ->
                sorted_desc (fold_left (fun acc x => insert_desc x acc) l acc)).
  { induction l as [|x l IH]; intros acc H; simpl; [exact H|].
    apply IH, insert_desc_sorted_any, H. }
  apply G; exact I.
Qed.

Lemma sorted_desc_skipn n l : sorted_desc l -> sorted_desc (skipn n l).
Proof.
  revert l; induction n as [|n IH]; intros l H; [exact H|].
  destruct l as [|x l]; [exact I|]; simpl; apply IH, (sorted_desc_tail x), H.
Qed.

Lemma sorted_desc_firstn n l : sorted_desc l -> sorted_desc (firstn n l).
Proof.
  revert n; induction l as [|x l IH]; intros n H; destruct n as [|n]; simpl; try exact I.
  destruct l as [|y l]; destruct n as [|n]; simpl in *; try exact I.
  destruct H as [Hyx H]; split; [exact Hyx|].
  exact (IH (S n) H).
Qed.

Lemma js_slice_sorted l a b : sorted_desc l -> sorted_desc (js_slice l a b).
Proof. intros H; apply sorted_desc_firstn, sorted_desc_skipn, H. Qed.

Lemma firstn_min {A} n (l : list A) : firstn n l = firstn (Nat.min n (length l)) l.
Proof.
  revert n; induction l as [|x l IH]; intros [|n]; simpl; try reflexivity.
  f_equal; apply IH.
Qed.

Lemma skipn_min {A} n (l : list A) : skipn n l = skipn (Nat.min n (length l)) l.
Proof.
  revert n; induction l as [|x l IH]; intros [|n]; simpl; try reflexivity.
  apply IH.
Qed.

Lemma skipn_nonempty {A} n (l : list A) : skipn n l <> [] <-> n < length l.
Proof.
  rewrite <- (length_zero_iff_nil (skipn n l)), length_skipn; lia.
Qed.

(** The slice taken by [listIntents] for a non-negative start and limit. *)
Lemma js_slice_nonneg {A} (l : list A) start lim :
  (0 <= start)%Z -> (0 <= lim)%Z ->
  js_slice l (JNum start) (js_add (JNum start) (JNum lim)) =
    firstn (Z.to_nat lim) (skipn (Z.to_nat start) l).
Proof.
  intros Hs Hl; unfold js_slice, rel_index, js_add.
  destruct (start <? 0)%Z eqn:E1; [apply Z.ltb_lt in E1; lia|].
  destruct (start + lim <? 0)%Z eqn:E2; [apply Z.ltb_lt in E2; lia|].
  rewrite (skipn_min (Z.to_nat (Z.min start _))), (skipn_min (Z.to_nat start)).
  replace (Nat.min (Z.to_nat (Z.min start (Z.of_nat (length l)))) (length l))
    with (Nat.min (Z.to_nat start) (length l)) by lia.
  rewrite (firstn_min (Z.to_nat (_ - _))), (firstn_min (Z.to_nat lim)).
  rewrite length_skipn; f_equal; lia.
Qed.

(** Three intents, created at times 0, 1 and 2. *)
Definition three_trace : list Action :=
  [Create (payload None) "a"; Tick 1; Create (payload None) "b"; Tick 1;
   Create (payload None) "c"].

(** C10 (corrected), counterexample.  With [limit = -1] (what
    [parseInt("-1")] gives for [?limit=-1]) the page holds two intents. *)
Lemma list_negative_limit :
  let r := listIntents (mkFilters None (Some (JNum (-1))) None) (run three_trace init) in
  length (l_intents r) = 2 /\ (Z.of_nat (length (l_intents r)) > -1)%Z.
Proof. split; [reflexivity | simpl; lia]. Qed.

(** C10 (amended).  Every page is sorted newest first, and an absent limit
    acts as 20.  When the limit and the start index (the parsed cursor, 0
    when absent) are non-negative integers, the page is the [limit]
    matching intents after the first [start], so it has at most [limit]
    items, and [nextCursor] is present exactly when matching intents remain
    after the page. *)
Theorem list_page_contract f s :
  sorted_desc (l_intents (listIntents f s)) /\
  listIntents (mkFilters (f_states f) None (f_cursor f)) s =
    listIntents (mkFilters (f_states f) (Some (JNum 20)) (f_cursor f)) s /\
  forall lim start,
    match f_limit f with Some l => l | None => JNum 20 end = JNum lim ->
    match f_cursor f with Some c => c | None => JNum 0 end = JNum start ->
    (0 <= lim)%Z -> (0 <= start)%Z ->
    let results := sort_desc (filter_states f (map snd (intents s))) in
    l_intents (listIntents f s) = firstn (Z.to_nat lim) (skipn (Z.to_nat start) results) /\
    (Z.of_nat (length (l_intents (listIntents f s))) <= lim)%Z /\
    (nextCursor (listIntents f s) <> None <->
       skipn (Z.to_nat (start + lim)) results <> []).
Proof.
  split; [apply js_slice_sorted, sort_desc_sorted|].
  split; [reflexivity|].
  intros lim start Hl Hs Hl0 Hs0 results.
  unfold listIntents; cbn [l_intents nextCursor]; fold results.
  rewrite Hl, Hs, js_slice_nonneg by assumption.
  split; [reflexivity|]; split.
  - rewrite length_firstn; lia.
  - rewrite skipn_nonempty; unfold js_add, js_lt.
    destruct (start + lim <? Z.of_nat (length results))%Z eqn:E.
    + apply Z.ltb_lt in E; split; [intros _; lia | discriminate].
    + apply Z.ltb_ge in E; split; [intros H; exfalso; apply H; reflexivity | lia].
Qed.

Lemma list_page_contract_witness :
  let f := mkFilters None (Some (JNum 2)) (Some (JNum 1)) in
  let s := run three_trace init in
  map id (l_intents (listIntents f s)) = ["b"; "a"] /\
  (Z.of_nat (length (l_intents (listIntents f s))) <= 2)%Z /\
  nextCursor (listIntents f s) = None.
Proof.
  destruct (list_page_contract (mkFilters None (Some (JNum 2)) (Some (JNum 1)))
              (run three_trace init)) as [_ [_ H]].
  destruct (H 2%Z 1%Z eq_refl eq_refl ltac:(lia) ltac:(lia)) as [Hp [Hlen _]].
  split; [rewrite Hp; reflexivity|]; split; [exact Hlen | reflexivity].
Defined.

Lemma kill_queue_and_list_witness :
  let s := run three_trace init in
  pendingIntents (getQueueStatus (fst (kill s))) = 0 /\
  snd (list_handler (mkQuery (JNum 20) None None) (fst (kill s))) = 3.
Proof.
  destruct (kill_queue_and_list (run three_trace init)) as [Hp [_ Hl]].
  split; [exact Hp|].
  rewrite (Hl (mkQuery (JNum 20) None None) eq_refl); reflexivity.
Defined.

(** * The rest of the mock server

    The endpoints and [MockState] methods that the properties above do not
    need: intent lookup, submission and validation, unsubscription, the mock
    controls with the authentication middleware, [reset], and the agent
    registry. *)

(** An HTTP answer: the JSON body of a 2xx reply, an error reply with its
    status and [{code, message}] body, or the plain-text 500 "Internal
    Server Error" of Hono's default error handler when an exception leaves
    the handler. *)
Inductive Reply (A : Type) :=
| Ok (a : A)
| Err (status : Z) (code : string) (msg : string)
| InternalError.
Arguments Ok {A} a.
Arguments Err {A} status code msg.
Arguments InternalError {A}.

(** ** [getIntent] (state.ts, lines 90-92) and [GET /api/v1/intents/:id]
    (mock-controls.ts, lines 160-177) *)

Definition getIntent (i : UUID) (s : MockState) : option StoredIntent :=
  map_get i (intents s).

Record IntentStatus := mkIntentStatus {
  st_intentId : UUID; st_state : ExecutionState; st_outcome : option Outcome;
  st_events : list Event; st_createdAt : Timestamp;
  st_completedAt : option Timestamp }.

Definition get_intent_handler (i : UUID) (s : MockState) : Reply IntentStatus :=
  match getIntent i s with
  | None => Err 404 "NOT_FOUND" "Intent not found"
  | Some it =>
      Ok (mkIntentStatus (id it) (state it) (outcome it) (events it)
            (createdAt it) (completedAt it))
  end.

(** ** [POST /api/v1/intents/:id/cancel] (mock-controls.ts, lines 179-196)

    The request body is read and ignored. *)

Record CancelReply := mkCancelReply {
  cancelled : bool; finalState : ExecutionState; c_message : string }.

Definition cancel_handler (i : UUID) (s : MockState) : MockState * Reply CancelReply :=
  let (s', r) := cancelIntent i s in
  match r with
  | None => (s', Err 404 "NOT_FOUND" "Intent not found")
  | Some it =>
      let c := ExecutionState_beq (state it) CANCELLED in
      (s', Ok (mkCancelReply c (state it)
                 (if c then "Intent cancelled" else "Intent already completed")))
  end.

(** ** [POST /api/v1/intents] (mock-controls.ts, lines 51-92)

    The body's [intent]: [None] when it is absent or [null].  Of the payload
    the handler tests [action] (present or not), [inputs] (an array, tested
    through [inputs?.length]) and [output] (an [Asset] or absent), and
    [createIntent] reads [id].  [simulateFirst] and [idempotencyKey] are
    never used.  After [createIntent] the handler calls [generateMockQuote],
    floating-point code ([BigInt] of the first input's amount string,
    [Math.pow], [Math.random()], [BigInt] of [Math.floor] results) that
    throws for an amount string that is not an integer literal or a result
    that is not finite.  Whether it returns is the argument
    [quote_returns], as the draws of [Math.random()] are for the driver;
    the quote itself only goes into the reply and is left out of
    [SubmitReply].  When it throws, the exception leaves the handler with
    the intent already stored and its driver parked. *)

Record Payload := mkPayload {
  p_id : option UUID;
  p_action : option string;
  p_inputs : option (list (Asset * string));
  p_output : option Asset }.

Record SubmitReply := mkSubmitReply {
  s_intentId : UUID; s_state : ExecutionState; submittedAt : Timestamp }.

Definition submit_handler (body : option Payload) (fresh : UUID)
  (quote_returns : bool) (s : MockState) : MockState * Reply SubmitReply :=
  match body with
  | None => (s, Err 400 "INVALID_ARGUMENT" "Intent is required")
  | Some p =>
      match p_action p, p_inputs p, p_output p with
      | Some _, Some (_ :: _), Some out =>
          let (s', stored) := createIntent (mkIntent (p_id p) out) fresh s in
          if quote_returns
          then (s', Ok (mkSubmitReply (id stored) (state stored) (createdAt stored)))
          else (s', InternalError)
      | _, _, _ => (s, Err 400 "INTENT_INVALID" "Intent missing required fields")
      end
  end.

(** ** [POST /api/v1/intents/validate] (mock-controls.ts, lines 132-158)

    [deadline] is a number of milliseconds or absent; [!intent.deadline]
    also holds for [0].  Without an [intent] in the body, [intent.action]
    throws a [TypeError] and the request fails: [None]. *)

Record VPayload := mkVPayload {
  v_action : option string;
  v_inputs : option (list (Asset * string));
  v_output : option Asset;
  v_deadline : option Z }.

Definition validate_handler (body : option VPayload) (t : Timestamp)
  : option (bool * list (string * string)) :=
  match body with
  | None => None
  | Some v =>
      let e1 := match v_action v with
                | Some _ => [] | None => [("action", "Action is required")] end in
      let e2 := match v_inputs v with
                | Some (_ :: _) => []
                | _ => [("inputs", "At least one input is required")] end in
      let e3 := match v_output v with
                | Some _ => [] | None => [("output", "Output is required")] end in
      let e4 := match v_deadline v with
                | None | Some Z0 => [("deadline", "Deadline is required")]
                | Some d =>
                    if (d <? t)%Z then [("deadline", "Deadline must be in the future")]
                    else []
                end in
      let errors := e1 ++ e2 ++ e3 ++ e4 in
      Some (Nat.eqb (length errors) 0, errors)
  end.

(** ** Unsubscribing: the function [watchIntent] returns (state.ts, lines
    153-155), called when a [/watch] connection is aborted.  The Set holds
    a callback at most once, so [delete] removes every copy. *)

Definition set_delete (x : nat) (l : list nat) : list nat := remove Nat.eq_dec x l.

Definition unwatch (sid : nat) (i : UUID) (s : MockState) : MockState :=
  match map_get i (intentWatchers s) with
  | None => s
  | Some cbs => set_watchers (map_set i (set_delete sid cbs) (intentWatchers s)) s
  end.

(** ** Mock controls (state.ts, lines 378-407; mock-controls.ts, lines 6-41)
    and the authentication middleware of [createServer] (lines 524-551)

    [nextFailure] and [latencyMs] are fields of [MockState] the engine never
    reads; they are kept in a record of their own.  A body field is [None]
    when it is absent, so the destructuring default applies. *)

Record MockFailure := mkFailure { f_code : string; f_message : string; f_status : Z }.

Record Controls := mkControls { nextFailure : option MockFailure; latencyMs : Z }.

Definition setNextFailure (f : MockFailure) (c : Controls) : Controls :=
  mkControls (Some f) (latencyMs c).

Definition shouldFailNext (c : Controls) : bool :=
  match nextFailure c with Some _ => true | None => false end.

Definition consumeFailure (c : Controls) : option MockFailure * Controls :=
  (nextFailure c, mkControls None (latencyMs c)).

Definition setLatency (ms : Z) (c : Controls) : Controls := mkControls (nextFailure c) ms.

Definition getLatency (c : Controls) : Z := latencyMs c.

Definition fail_next_handler (code msg : option string) (status : option Z)
  (c : Controls) : Controls * MockFailure :=
  let f := mkFailure (match code with Some x => x | None => "INTERNAL" end)
             (match msg with Some x => x | None => "Simulated failure" end)
             (match status with Some x => x | None => 500%Z end) in
  (setNextFailure f c, f).

(** The middleware on ['/api/v1/*'] for a request with path [path] and
    [Authorization] header [auth]: a 401 answer, the configured failure,
    the plain 500 of Hono's default error handler, or the handler
    ([next()]) after an optional delay. *)
Inductive MwResult :=
| MwUnauthenticated
| MwForced (f : MockFailure)
| MwInternalError
| MwNext (delay : option Z).

(** [c.json(body, status)] builds a Fetch [Response], whose constructor
    throws for a status outside 200-599 ([RangeError]) and for a null-body
    status, 204, 205 or 304, given a body ([TypeError]). *)
Definition response_status_ok (st : Z) : bool :=
  (200 <=? st)%Z && (st <=? 599)%Z &&
  negb ((st =? 204)%Z || (st =? 205)%Z || (st =? 304)%Z).

Definition auth_middleware (path : string) (auth : option string) (c : Controls)
  : Controls * MwResult :=
  if String.eqb path "/api/v1/health" then (c, MwNext None)
  else
    let ok := match auth with
              | Some a => String.prefix "Bearer nxw_" a
              | None => false
              end in
    if negb ok then (c, MwUnauthenticated)
    else if shouldFailNext c then
      let (f, c') := consumeFailure c in
      match f with
      | Some f =>
          (c', if response_status_ok (f_status f) then MwForced f else MwInternalError)
      | None => (c', MwNext None)
      end
    else
      let latency := getLatency c in
      (c, MwNext (if (0 <? latency)%Z then Some latency else None)).

(** [reset]: the maps are cleared and the controls set back; the timers of
    parked drivers, the open streams and the clock are not the store's. *)
Definition reset (s : MockState) (c : Controls) : MockState * Controls :=
  (mkState [] [] [] (streams s) false (now s) (tasks s) (next_task s),
   mkControls None 0).

(** ** The agent registry (state.ts, lines 254-303; handlers/agents.ts)

    Request bodies are JSON values; numbers are taken to be integers and
    strings ASCII.  [truthy] is JavaScript's truthiness on them. *)

Set Warnings "-register-all".
Inductive Json :=
| JUndefined
| JNull
| JBool (b : bool)
| JNumber (z : Z)
| JString (s : string)
| JArray (l : list Json)
| JObject (kv : list (string * Json)).
Set Warnings "register-all".

Definition truthy (v : Json) : bool :=
  match v with
  | JUndefined | JNull => false
  | JBool b => b
  | JNumber z => negb (z =? 0)%Z
  | JString s => negb (String.eqb s "")
  | JArray _ | JObject _ => true
  end.

Record AgentState := mkAgentState {
  executionCount : Z;
  dailyNotional : string;
  consecutiveFailures : Z;
  lastExecutionAt : option Timestamp;
  nextExecutionAt : option Timestamp }.

(** The full agent record ([StoredAgent] above keeps the fields [kill]
    reads). *)
Record Agent := mkAgentRecord {
  ag_id : string;
  ag_name : Json;
  ag_status : AgentStatus;
  ag_config : Json;
  ag_state : AgentState;
  ag_createdAt : Timestamp;
  ag_startedAt : option Timestamp;
  ag_stoppedAt : option Timestamp }.

Definition AgentMap := list (string * Agent).

(** [uuid] is the value [crypto.randomUUID()] returns, [t] the clock. *)
Definition createAgent (name config : Json) (uuid : string) (t : Timestamp)
  (db : AgentMap) : AgentMap * Agent :=
  let i := String.append "agt_" (substring 0 8 uuid) in
  let a := mkAgentRecord i name A_CREATED config (mkAgentState 0 "0" 0 None None)
             t None None in
  (map_set i a db, a).

Definition getAgent (i : string) (db : AgentMap) : option Agent := map_get i db.

Definition listAgents (db : AgentMap) : list Agent := map snd db.

Definition startAgent (i : string) (t : Timestamp) (db : AgentMap)
  : AgentMap * option Agent :=
  match map_get i db with
  | None => (db, None)
  | Some a =>
      let a' := mkAgentRecord (ag_id a) (ag_name a) A_RUNNING (ag_config a)
                  (ag_state a) (ag_createdAt a) (Some t) (ag_stoppedAt a) in
      (map_set i a' db, Some a')
  end.

Definition stopAgent (i : string) (t : Timestamp) (db : AgentMap)
  : AgentMap * option Agent :=
  match map_get i db with
  | None => (db, None)
  | Some a =>
      let a' := mkAgentRecord (ag_id a) (ag_name a) A_STOPPED (ag_config a)
                  (ag_state a) (ag_createdAt a) (ag_startedAt a) (Some t) in
      (map_set i a' db, Some a')
  end.

Definition map_delete {V} (k : string) (m : list (string * V)) : list (string * V) :=
  filter (fun p => negb (String.eqb k (fst p))) m.

Definition deleteAgent (i : string) (db : AgentMap) : AgentMap * bool :=
  (map_delete i db, match map_get i db with Some _ => true | None => false end).

(** [POST /api/v1/agents] (agents.ts, lines 6-24).  The reply serialises
    the object [startAgent] has just mutated. *)
Definition create_agent_handler (name config startImmediately : Json)
  (uuid : string) (t : Timestamp) (db : AgentMap) : AgentMap * Reply Agent :=
  if negb (truthy name && truthy config) then
    (db, Err 400 "INVALID_ARGUMENT" "Name and config are required")
  else
    let (db1, a) := createAgent name config uuid t db in
    if truthy startImmediately then
      match startAgent (ag_id a) t db1 with
      | (db2, Some a') => (db2, Ok a')
      | (db2, None) => (db2, Ok a)
      end
    else (db1, Ok a).

Definition get_agent_handler (i : string) (db : AgentMap) : Reply Agent :=
  match getAgent i db with
  | None => Err 404 "NOT_FOUND" "Agent not found"
  | Some a => Ok a
  end.

(** Object spread [{ ...a, ...b }]: the own enumerable properties of [a],
    then those of [b], each assignment overwriting.  A string spreads its
    characters and an array its elements under their indices; other
    primitives spread nothing.  (JavaScript lists integer-like keys first
    when it enumerates an object; lookups do not depend on that order.) *)
Definition index_key (n : nat) : string := NilZero.string_of_uint (Nat.to_uint n).

Definition spread_entries (v : Json) : list (string * Json) :=
  match v with
  | JObject kv => kv
  | JArray l => combine (map index_key (seq 0 (length l))) l
  | JString s =>
      combine (map index_key (seq 0 (String.length s)))
        (map (fun c => JString (String c EmptyString)) (list_ascii_of_string s))
  | _ => []
  end.

Definition assign_all (m : list (string * Json)) (kv : list (string * Json))
  : list (string * Json) :=
  fold_left (fun acc p => map_set (fst p) (snd p) acc) kv m.

Definition spread_merge (a b : Json) : Json :=
  JObject (assign_all (assign_all [] (spread_entries a)) (spread_entries b)).

(** [PATCH /api/v1/agents/:id] (agents.ts, lines 39-58): the stored object
    is updated in place. *)
Definition patch_agent_handler (i : string) (b_config b_name : Json) (db : AgentMap)
  : AgentMap * Reply Agent :=
  match getAgent i db with
  | None => (db, Err 404 "NOT_FOUND" "Agent not found")
  | Some a =>
      let a1 := if truthy b_config then
                  mkAgentRecord (ag_id a) (ag_name a) (ag_status a)
                    (spread_merge (ag_config a) b_config) (ag_state a)
                    (ag_createdAt a) (ag_startedAt a) (ag_stoppedAt a)
                else a in
      let a2 := if truthy b_name then
                  mkAgentRecord (ag_id a1) b_name (ag_status a1) (ag_config a1)
                    (ag_state a1) (ag_createdAt a1) (ag_startedAt a1) (ag_stoppedAt a1)
                else a1 in
      (map_set i a2 db, Ok a2)
  end.

(** [POST /api/v1/agents/:id/start] and [/stop] (agents.ts, lines 61-82);
    the stop reply also carries [wasExecuting: false]. *)
Definition start_agent_handler (i : string) (t : Timestamp) (db : AgentMap)
  : AgentMap * Reply Agent :=
  match startAgent i t db with
  | (db', None) => (db', Err 404 "NOT_FOUND" "Agent not found")
  | (db', Some a) => (db', Ok a)
  end.

Definition stop_agent_handler (i : string) (t : Timestamp) (db : AgentMap)
  : AgentMap * Reply (Agent * bool) :=
  match stopAgent i t db with
  | (db', None) => (db', Err 404 "NOT_FOUND" "Agent not found")
  | (db', Some a) => (db', Ok (a, false))
  end.

(** [DELETE /api/v1/agents/:id] (agents.ts, lines 85-94). *)
Definition delete_agent_handler (i : string) (db : AgentMap) : AgentMap * Reply bool :=
  let (db', deleted) := deleteAgent i db in
  if deleted then (db', Ok true) else (db', Err 404 "NOT_FOUND" "Agent not found").

(** ** Facts about the rest of the server *)

Lemma map_set_keys {V} (k : string) (v : V) m :
  map fst (map_set k v m) =
  if existsb (String.eqb k) (map fst m) then map fst m else map fst m ++ [k].
Proof.
  induction m as [|[k' v'] m IH]; simpl; [reflexivity|].
  destruct (String.eqb k k') eqn:E; simpl; [reflexivity|].
  rewrite IH; destruct (existsb _ _); reflexivity.
Qed.

Lemma getIntent_get i s : getIntent i s = get i s.
Proof. reflexivity. Qed.

Lemma driver_step_retires t r s tk :
  find_task t (tasks s) = Some tk ->
  (forall it, getIntent (task_id tk) s = Some it -> state it = CANCELLED) ->
  driver_step t r s = stop_task t s.
Proof.
  intros Hf Hc; unfold driver_step; rewrite Hf.
  destruct (nth_error stages (task_stage tk)) as [[[st msg] d]|]; [|reflexivity].
  unfold getIntent in Hc.
  destruct (map_get (task_id tk) (intents s)) as [cur|]; [|reflexivity].
  rewrite (Hc cur eq_refl); reflexivity.
Qed.

Lemma cancel_tasks i s : tasks (fst (cancelIntent i s)) = tasks s.
Proof.
  unfold cancelIntent; destruct (map_get i (intents s)) as [it|]; [|reflexivity].
  destruct (_ || _); [reflexivity|]; simpl; rewrite notify_tasks; reflexivity.
Qed.

Lemma cancel_get_cancelled i s :
  (forall it, getIntent i s = Some it -> state it <> COMPLETED /\ state it <> FAILED) ->
  forall it', getIntent i (fst (cancelIntent i s)) = Some it' -> state it' = CANCELLED.
Proof.
  unfold getIntent, cancelIntent; intros Hnt.
  destruct (map_get i (intents s)) as [it|] eqn:E; simpl; [|rewrite E; discriminate].
  destruct (Hnt it eq_refl) as [H1 H2].
  rewrite (state_beq_false _ _ H1), (state_beq_false _ _ H2); simpl.
  rewrite notify_intents; simpl; rewrite map_get_set_eq.
  intros it' H; injection H as <-; reflexivity.
Qed.

Lemma kill_tasks s : tasks (fst (kill s)) = tasks s.
Proof.
  unfold kill; destruct (kill_intents (now s) (intents s)) as [li n].
  destruct (kill_agents (now s) (agents s)) as [la m]; reflexivity.
Qed.

Lemma kill_get i s : getIntent i (fst (kill s)) = option_map (killed (now s)) (getIntent i s).
Proof. unfold getIntent; rewrite kill_intents_of; apply kill_intents_get. Qed.

(** An action that stores an intent under [i]. *)
Definition creates_under (i : UUID) (a : Action) : bool :=
  match a with Create p f => String.eqb (created_id p f) i | _ => false end.

(** The intent [i] is absent or [CANCELLED]. *)
Definition dead (i : UUID) (s : MockState) : Prop :=
  forall it, get i s = Some it -> state it = CANCELLED.

Lemma dead_retires i s t r tk :
  dead i s -> find_task t (tasks s) = Some tk -> task_id tk = i ->
  driver_step t r s = stop_task t s.
Proof.
  intros Hd Hf Hid; apply (driver_step_retires t r s tk Hf).
  intros it; rewrite getIntent_get, Hid; apply Hd.
Qed.

Lemma dead_step i a s : dead i s -> creates_under i a = false -> dead i (step a s).
Proof.
  intros Hd Hc; destruct a as [p f|t r|j| | | |sid j|dt]; simpl in Hc |- *.
  - pose proof (create_view i p f s) as V; rewrite Hc in V.
    unfold view in V; injection V as V _; intros it; rewrite V; apply Hd.
  - destruct (find_task t (tasks s)) as [tk|] eqn:Hf.
    + destruct (String.eqb (task_id tk) i) eqn:E.
      * apply String.eqb_eq in E; rewrite (dead_retires i s t r tk Hd Hf E).
        intros it; unfold stop_task; rewrite get_set_tasks; apply Hd.
      * apply String.eqb_neq in E.
        pose proof (view_driver_other i t r s tk Hf E) as V.
        unfold view in V; injection V as V _; intros it; rewrite V; apply Hd.
    + unfold driver_step; rewrite Hf; exact Hd.
  - destruct (String.eqb j i) eqn:E.
    + apply String.eqb_eq in E; subst j; intros it'; rewrite <- getIntent_get.
      apply cancel_get_cancelled; intros it Hit; rewrite getIntent_get in Hit.
      rewrite (Hd it Hit); split; discriminate.
    + apply String.eqb_neq in E.
      pose proof (cancel_view_other i j s E) as V.
      unfold view in V; injection V as V _; intros it; rewrite V; apply Hd.
  - intros it'; rewrite <- getIntent_get, kill_get, getIntent_get.
    destruct (get i s) as [it|] eqn:E; simpl; [|discriminate].
    intros H; injection H as <-; unfold killed; rewrite (Hd it E); exact (Hd it E).
  - exact Hd.
  - exact Hd.
  - destruct (watch_handler sid j s) as [s'|] eqn:W; [|exact Hd].
    pose proof (watch_view i sid j s s' W) as V.
    unfold view in V; injection V as V _; intros it; rewrite V; apply Hd.
  - exact Hd.
Qed.

Lemma dead_run i tr s :
  dead i s -> Forall (fun a => creates_under i a = false) tr -> dead i (run tr s).
Proof.
  revert s; induction tr as [|a tr IH]; intros s Hd HF; simpl; [exact Hd|].
  inversion HF as [|? ? Ha Htr]; subst.
  apply IH; [apply dead_step|]; assumption.
Qed.

(** X1. [createIntent] stores its record under the payload's id, or the
    generated one when the payload has none: looking that id up returns the
    new [PENDING] record with its single creation event, every other id
    keeps its record, the id joins the end of the map's keys unless it was
    already a key (the old record is then replaced in place), and one
    driver is parked on the first stage. *)
Theorem createIntent_stores p f s :
  let i := created_id p f in
  let s' := fst (createIntent p f s) in
  getIntent i s' = Some (snd (createIntent p f s)) /\
  state (snd (createIntent p f s)) = PENDING /\
  events (snd (createIntent p f s)) =
    [mkEvent "SUBMISSION" "STARTED" "Intent received" (now s)] /\
  (forall j, j <> i -> getIntent j s' = getIntent j s) /\
  map fst (intents s') =
    (if existsb (String.eqb i) (map fst (intents s)) then map fst (intents s)
     else map fst (intents s) ++ [i]) /\
  tasks s' = tasks s ++ [mkTask (next_task s) i 0].
Proof.
  unfold createIntent, simulateExecution_start, getIntent, created_id; simpl.
  rewrite map_get_set_eq; simpl.
  repeat split.
  - apply map_get_set_eq.
  - intros j Hj; apply map_get_set_neq; exact Hj.
  - apply map_set_keys.
Qed.

(** X2. Once an intent that was not [COMPLETED] or [FAILED] is cancelled,
    it stays [CANCELLED] through any later steps that store no new intent
    under its id, and whenever the timer of one of its parked drivers
    fires in between, the driver only retires: the records, the
    subscribers and the streams are left as they are. *)
Theorem driver_after_cancel i tr s :
  (forall it, getIntent i s = Some it -> state it <> COMPLETED /\ state it <> FAILED) ->
  Forall (fun a => creates_under i a = false) tr ->
  let s' := run tr (fst (cancelIntent i s)) in
  (forall it, getIntent i s' = Some it -> state it = CANCELLED) /\
  (forall t r tk, find_task t (tasks s') = Some tk -> task_id tk = i ->
     driver_step t r s' = stop_task t s').
Proof.
  intros Hnt HF s'.
  assert (Hd : dead i s').
  { apply dead_run; [|exact HF].
    intros it; rewrite <- getIntent_get; apply cancel_get_cancelled; exact Hnt. }
  split.
  - intros it; rewrite getIntent_get; apply Hd.
  - intros t r tk Hf Hid; exact (dead_retires i s' t r tk Hd Hf Hid).
Qed.

Lemma driver_after_cancel_witness :
  let s := run [Create (payload None) "a"] init in
  let s' := run [Create (payload (Some "b")) "x"; DriverStep 1 half; Kill; Tick 10%Z]
              (fst (cancelIntent "a" s)) in
  driver_step 0 half s' = stop_task 0 s'.
Proof.
  intros s s'.
  assert (Hnt : forall it, getIntent "a" s = Some it ->
                  state it <> COMPLETED /\ state it <> FAILED).
  { intros it H; vm_compute in H; injection H as <-; split; discriminate. }
  assert (HF : Forall (fun a => creates_under "a" a = false)
                 [Create (payload (Some "b")) "x"; DriverStep 1 half; Kill; Tick 10%Z]).
  { repeat constructor. }
  pose proof (driver_after_cancel "a" _ s Hnt HF) as G; cbv zeta in G.
  destruct G as [_ H].
  apply (H 0 half (mkTask 0 "a" 0)); vm_compute; reflexivity.
Defined.

(** X3. After [kill], every intent that was not [COMPLETED] or [FAILED]
    stays [CANCELLED] through any later steps that store no new intent
    under its id, and whenever the timer of one of its parked drivers
    fires in between, the driver only retires: [kill]'s [CANCELLED] is
    what stops the drivers. *)
Theorem driver_after_kill i tr s :
  (forall it, getIntent i s = Some it -> state it <> COMPLETED /\ state it <> FAILED) ->
  Forall (fun a => creates_under i a = false) tr ->
  let s' := run tr (fst (kill s)) in
  (forall it, getIntent i s' = Some it -> state it = CANCELLED) /\
  (forall t r tk, find_task t (tasks s') = Some tk -> task_id tk = i ->
     driver_step t r s' = stop_task t s').
Proof.
  intros Hnt HF s'.
  assert (Hd : dead i s').
  { apply dead_run; [|exact HF].
    intros it'; rewrite <- getIntent_get, kill_get.
    destruct (getIntent i s) as [it|] eqn:E; simpl; [|discriminate].
    intros H; injection H as <-; destruct (Hnt it eq_refl) as [H1 H2].
    unfold killed; destruct (state it) eqn:Es; simpl; congruence. }
  split.
  - intros it; rewrite getIntent_get; apply Hd.
  - intros t r tk Hf Hid; exact (dead_retires i s' t r tk Hd Hf Hid).
Qed.

Lemma driver_after_kill_witness :
  let s := run [Create (payload None) "a"; Create (payload None) "b"] init in
  let s' := run [Cancel "a"; Watch 3 "a"; DriverStep 1 half; Tick 10%Z] (fst (kill s)) in
  driver_step 0 half s' = stop_task 0 s'.
Proof.
  intros s s'.
  assert (Hnt : forall it, getIntent "a" s = Some it ->
                  state it <> COMPLETED /\ state it <> FAILED).
  { intros it H; vm_compute in H; injection H as <-; split; discriminate. }
  assert (HF : Forall (fun a => creates_under "a" a = false)
                 [Cancel "a"; Watch 3 "a"; DriverStep 1 half; Tick 10%Z]).
  { repeat constructor. }
  pose proof (driver_after_kill "a" _ s Hnt HF) as G; cbv zeta in G.
  destruct G as [_ H].
  apply (H 0 half (mkTask 0 "a" 0)); vm_compute; reflexivity.
Defined.

(** X4. Operations on one intent id never change the record of another:
    a driver step of another intent's driver, a cancellation of another
    id, and a creation under another id all leave it as it is. *)
Theorem other_intents_untouched i s :
  (forall t r tk, find_task t (tasks s) = Some tk -> task_id tk <> i ->
     getIntent i (driver_step t r s) = getIntent i s) /\
  (forall j, j <> i -> getIntent i (fst (cancelIntent j s)) = getIntent i s) /\
  (forall p f, created_id p f <> i -> getIntent i (fst (createIntent p f s)) = getIntent i s).
Proof.
  split; [|split].
  - intros t r tk Hf Hne; pose proof (view_driver_other i t r s tk Hf Hne) as H.
    exact (f_equal fst H).
  - intros j Hne; exact (f_equal fst (cancel_view_other i j s Hne)).
  - intros p f Hne; pose proof (create_view i p f s) as H.
    apply String.eqb_neq in Hne; rewrite Hne in H; exact (f_equal fst H).
Qed.

Lemma other_intents_untouched_witness :
  let s := run [Create (payload None) "a"; Create (payload None) "b"] init in
  getIntent "a" (driver_step 1 half s) = getIntent "a" s /\
  getIntent "a" (fst (cancelIntent "b" s)) = getIntent "a" s.
Proof.
  destruct (other_intents_untouched "a" (run [Create (payload None) "a"; Create (payload None) "b"] init))
    as [Hd [Hc _]].
  split.
  - apply (Hd 1 half (mkTask 1 "b" 0)); [reflexivity | discriminate].
  - apply Hc; discriminate.
Defined.

(** X5. The number of executions [kill] reports is the number of [PENDING]
    intents plus the number of executing ones that [getQueueStatus] counts,
    plus the [RETRYING] ones, which the queue status counts in neither. *)
Theorem kill_count_by_state s :
  executionsKilled (snd (kill s)) =
    pendingIntents (getQueueStatus s) + executingIntents (getQueueStatus s) +
    length (filter (fun p => ExecutionState_beq (state (snd p)) RETRYING) (intents s)).
Proof.
  assert (H : executionsKilled (snd (kill s)) = snd (kill_intents (now s) (intents s))).
  { unfold kill; destruct (kill_intents (now s) (intents s)) as [li n].
    destruct (kill_agents (now s) (agents s)) as [la m]; reflexivity. }
  rewrite H, kill_intents_count; unfold getQueueStatus; simpl; clear H.
  induction (intents s) as [|[k it] l IH]; simpl; [reflexivity|].
  destruct (state it); simpl; lia.
Qed.

Definition stop_if_running (t : Timestamp) (a : StoredAgent) : StoredAgent :=
  match status a with
  | A_RUNNING => mkAgent (agent_name a) A_STOPPED (Some t)
  | _ => a
  end.

Definition is_running (p : string * StoredAgent) : bool :=
  match status (snd p) with A_RUNNING => true | _ => false end.

Lemma kill_agents_get k t l :
  map_get k (fst (kill_agents t l)) = option_map (stop_if_running t) (map_get k l).
Proof.
  induction l as [|[k' a] l IH]; simpl; [reflexivity|].
  destruct (kill_agents t l) as [l'' n] eqn:E; simpl in IH.
  destruct (status a) eqn:Ea; simpl; destruct (String.eqb k k') eqn:Ek; simpl;
    try exact IH; unfold stop_if_running; rewrite Ea; reflexivity.
Qed.

Lemma kill_agents_count t l : snd (kill_agents t l) = length (filter is_running l).
Proof.
  induction l as [|[k a] l IH]; simpl; [reflexivity|].
  destruct (kill_agents t l) as [l'' n] eqn:E; simpl in *.
  unfold is_running at 1; simpl; destruct (status a); simpl; congruence.
Qed.

Lemma kill_agents_none_running t l : filter is_running (fst (kill_agents t l)) = [].
Proof.
  induction l as [|[k a] l IH]; simpl; [reflexivity|].
  destruct (kill_agents t l) as [l'' n] eqn:E; simpl in *.
  destruct (status a) eqn:Ea; simpl; unfold is_running at 1; simpl; rewrite ?Ea; exact IH.
Qed.

Lemma kill_agents_of s : agents (fst (kill s)) = fst (kill_agents (now s) (agents s)).
Proof.
  unfold kill; destruct (kill_intents (now s) (intents s)) as [li n].
  destruct (kill_agents (now s) (agents s)) as [la m]; reflexivity.
Qed.

(** X6. [kill] stops exactly the agents [getQueueStatus] counts as running:
    it reports as many as the status counted, none is running afterwards,
    a running agent becomes [STOPPED] with [stoppedAt] set to the current
    time, and any other agent is left as it was. *)
Theorem kill_stops_running_agents s :
  agentsStopped (snd (kill s)) = runningAgents (getQueueStatus s) /\
  runningAgents (getQueueStatus (fst (kill s))) = 0 /\
  (forall k a, map_get k (agents s) = Some a ->
     map_get k (agents (fst (kill s))) =
       Some (match status a with
             | A_RUNNING => mkAgent (agent_name a) A_STOPPED (Some (now s))
             | _ => a
             end)).
Proof.
  split; [|split].
  - assert (H : agentsStopped (snd (kill s)) = snd (kill_agents (now s) (agents s))).
    { unfold kill; destruct (kill_intents (now s) (intents s)) as [li n].
      destruct (kill_agents (now s) (agents s)) as [la m]; reflexivity. }
    rewrite H, kill_agents_count; reflexivity.
  - unfold getQueueStatus; simpl; rewrite kill_agents_of.
    change (fun p : string * StoredAgent => match status (snd p) with
                                            | A_RUNNING => true | _ => false end)
      with is_running.
    rewrite kill_agents_none_running; reflexivity.
  - intros k a H; rewrite kill_agents_of, kill_agents_get, H; reflexivity.
Qed.

Lemma kill_intents_noop t l :
  (forall p, In p l -> is_terminal (state (snd p)) = true) -> kill_intents t l = (l, 0).
Proof.
  induction l as [|[k it] l IH]; intros H; simpl; [reflexivity|].
  rewrite IH by (intros p Hp; apply H; right; exact Hp).
  pose proof (H (k, it) (or_introl eq_refl)) as Ht; simpl in Ht; rewrite Ht; reflexivity.
Qed.

Lemma kill_agents_noop t l : filter is_running l = [] -> kill_agents t l = (l, 0).
Proof.
  induction l as [|[k a] l IH]; intros H; simpl; [reflexivity|].
  unfold is_running in H at 1; simpl in H.
  destruct (status a) eqn:Ea; try discriminate; rewrite IH by exact H; reflexivity.
Qed.

(** X7. [kill] is idempotent: a second [kill] changes nothing and reports
    no execution killed and no agent stopped. *)
Theorem kill_idempotent s : kill (fst (kill s)) = (fst (kill s), mkKill 0 0).
Proof.
  set (s1 := fst (kill s)).
  assert (Hi : kill_intents (now s1) (intents s1) = (intents s1, 0)).
  { apply kill_intents_noop; intros p Hp; unfold s1 in Hp; rewrite kill_intents_of in Hp.
    exact (kill_intents_terminal _ _ _ Hp). }
  assert (Ha : kill_agents (now s1) (agents s1) = (agents s1, 0)).
  { apply kill_agents_noop; unfold s1; rewrite kill_agents_of.
    apply kill_agents_none_running. }
  unfold kill at 1; rewrite Hi, Ha; destruct s1; reflexivity.
Qed.

(** X8. The cancel endpoint answers 404 for an unknown id; for a
    [COMPLETED] or [FAILED] intent it answers [cancelled: false] with that
    state and the message "Intent already completed", changing nothing;
    for any other intent it answers [cancelled: true], [finalState:
    CANCELLED], and the stored intent is then [CANCELLED]. *)
Theorem cancel_handler_reply i s :
  (getIntent i s = None ->
     cancel_handler i s = (s, Err 404 "NOT_FOUND" "Intent not found")) /\
  (forall it, getIntent i s = Some it -> (state it = COMPLETED \/ state it = FAILED) ->
     cancel_handler i s =
       (s, Ok (mkCancelReply false (state it) "Intent already completed"))) /\
  (forall it, getIntent i s = Some it -> state it <> COMPLETED -> state it <> FAILED ->
     snd (cancel_handler i s) = Ok (mkCancelReply true CANCELLED "Intent cancelled") /\
     option_map state (getIntent i (fst (cancel_handler i s))) = Some CANCELLED).
Proof.
  unfold cancel_handler, cancelIntent, getIntent.
  split; [|split].
  - intros H; rewrite H; reflexivity.
  - intros it H Hst; rewrite H.
    destruct it; simpl in *; destruct Hst as [-> | ->]; reflexivity.
  - intros it H H1 H2; rewrite H.
    rewrite (state_beq_false _ _ H1), (state_beq_false _ _ H2); simpl.
    rewrite notify_intents; simpl; rewrite map_get_set_eq; split; reflexivity.
Qed.

Lemma cancel_handler_reply_witness :
  let s := run [Create (payload None) "a"] init in
  snd (cancel_handler "a" s) = Ok (mkCancelReply true CANCELLED "Intent cancelled").
Proof.
  destruct (cancel_handler_reply "a" (run [Create (payload None) "a"] init)) as [_ [_ H]].
  eapply H; [reflexivity | discriminate | discriminate].
Defined.

(** X9. For an id with no record, the status, cancel and watch endpoints
    all answer 404 and leave the store as it is. *)
Theorem unknown_intent_404 i sid s :
  getIntent i s = None ->
  get_intent_handler i s = Err 404 "NOT_FOUND" "Intent not found" /\
  cancel_handler i s = (s, Err 404 "NOT_FOUND" "Intent not found") /\
  watch_handler sid i s = None.
Proof.
  unfold get_intent_handler, cancel_handler, cancelIntent, watch_handler, getIntent.
  intros H; rewrite H; repeat split.
Qed.

Lemma unknown_intent_404_witness :
  let s := run [Create (payload None) "a"] init in
  get_intent_handler "b" s = Err 404 "NOT_FOUND" "Intent not found" /\
  cancel_handler "b" s = (s, Err 404 "NOT_FOUND" "Intent not found") /\
  watch_handler 0 "b" s = None.
Proof. apply unknown_intent_404; reflexivity. Defined.

(** X10. The submit endpoint answers 400 [INVALID_ARGUMENT] without an
    intent and 400 [INTENT_INVALID] when the action, a non-empty [inputs]
    array or the output is missing, in both cases storing nothing.
    Otherwise it stores the intent under its id (the payload's, or the
    generated one), and the status endpoint then reports it [PENDING] with
    its creation event, whether or not the quote code throws; the answer
    is that id in state [PENDING], submitted now, when the quote code
    returns, and a plain 500 when it throws. *)
Theorem submit_handler_contract body f q s :
  (body = None ->
     submit_handler body f q s = (s, Err 400 "INVALID_ARGUMENT" "Intent is required")) /\
  (forall p, body = Some p ->
     (p_action p = None \/ p_inputs p = None \/ p_inputs p = Some [] \/ p_output p = None) ->
     submit_handler body f q s = (s, Err 400 "INTENT_INVALID" "Intent missing required fields")) /\
  (forall p a x l out, body = Some p -> p_action p = Some a ->
     p_inputs p = Some (x :: l) -> p_output p = Some out ->
     let i := match p_id p with Some j => j | None => f end in
     snd (submit_handler body f q s) =
       (if q then Ok (mkSubmitReply i PENDING (now s)) else InternalError) /\
     get_intent_handler i (fst (submit_handler body f q s)) =
       Ok (mkIntentStatus i PENDING None
             [mkEvent "SUBMISSION" "STARTED" "Intent received" (now s)] (now s) None)).
Proof.
  split; [|split].
  - intros ->; reflexivity.
  - intros p -> Hm; simpl.
    destruct Hm as [H|[H|[H|H]]]; rewrite H; try reflexivity;
      destruct (p_action p), (p_inputs p) as [[|]|]; reflexivity.
  - intros p a x l out -> Ha Hi Ho; simpl; rewrite Ha, Hi, Ho.
    destruct (createIntent_stores (mkIntent (p_id p) out) f s) as [Hg [Hs [He _]]].
    unfold created_id in *; simpl in *.
    destruct (createIntent (mkIntent (p_id p) out) f s) as [s' st] eqn:Ec; simpl in *.
    destruct q; simpl;
      unfold get_intent_handler; rewrite Hg;
      unfold createIntent in Ec; injection Ec as _ <-; simpl;
      split; reflexivity.
Qed.

Lemma submit_handler_contract_witness :
  let body := Some (mkPayload None (Some "EXCHANGE") (Some [(sol, "1.5")]) (Some sol)) in
  snd (submit_handler body "a" false init) = InternalError /\
  get_intent_handler "a" (fst (submit_handler body "a" false init)) =
    Ok (mkIntentStatus "a" PENDING None
          [mkEvent "SUBMISSION" "STARTED" "Intent received" 0%Z] 0%Z None).
Proof.
  intros body.
  destruct (submit_handler_contract body "a" false init) as [_ [_ H]].
  exact (H _ "EXCHANGE" (sol, "1.5") [] sol eq_refl eq_refl eq_refl eq_refl).
Defined.

(** X11. The validate endpoint reports [valid: true] exactly when the
    intent has an action, a non-empty [inputs] array, an output, and a
    non-zero deadline that is not before the current time; a deadline of
    0 counts as missing. *)
Theorem validate_handler_valid v t :
  option_map fst (validate_handler (Some v) t) = Some true <->
  (exists a, v_action v = Some a) /\ (exists x l, v_inputs v = Some (x :: l)) /\
  (exists o, v_output v = Some o) /\
  (exists d, v_deadline v = Some d /\ d <> 0%Z /\ (t <= d)%Z).
Proof.
  unfold validate_handler; simpl.
  destruct (v_action v) as [a|]; destruct (v_inputs v) as [[|x l]|];
    destruct (v_output v) as [o|]; destruct (v_deadline v) as [[|d|d]|]; simpl;
    try (destruct (Z.ltb _ t) eqn:Ed); simpl;
    split; intros H;
    repeat match goal with
           | H : Some _ = Some _ |- _ => injection H as H
           | H : _ /\ _ |- _ => destruct H
           | H : exists _, _ |- _ => destruct H
           end;
    try discriminate; try congruence;
    try (apply Z.ltb_lt in Ed; lia);
    try (repeat split; eauto; eexists; split; [reflexivity | split; [discriminate | apply Z.ltb_ge; exact Ed]]).
Qed.

Lemma state_of_name_none n st : state_of_name n = None -> String.eqb (state_name st) n = false.
Proof.
  unfold state_of_name; intros H; apply (find_none _ _ H).
  destruct st; simpl; tauto.
Qed.

Lemma existsb_all_false {A} (f : A -> bool) l :
  (forall x, In x l -> f x = false) -> existsb f l = false.
Proof.
  intros H; apply not_true_iff_false; intros E.
  apply existsb_exists in E as [x [Hx Ex]]; rewrite (H x Hx) in Ex; discriminate.
Qed.

(** X12. A list query whose [states] parameter names no execution state
    (the names are compared exactly, so [pending] is not one) returns an
    empty page and [totalCount: 0], whatever the store holds. *)
Theorem list_unknown_states_empty q s sts :
  q_states q = Some sts -> sts <> [] ->
  (forall n, In n sts -> state_of_name n = None) ->
  l_intents (fst (list_handler q s)) = [] /\ snd (list_handler q s) = 0.
Proof.
  intros Hq Hne Hn.
  assert (Hf : filter_states (mkFilters (q_states q) (Some (q_limit q)) (q_cursor q))
                 (map snd (intents s)) = []).
  { unfold filter_states; simpl; rewrite Hq.
    destruct sts as [|n0 sts']; [congruence|].
    apply filter_all_false; intros it _.
    apply existsb_all_false; intros n Hin; apply state_of_name_none, Hn; exact Hin. }
  unfold list_handler, listIntents; simpl; rewrite Hf; simpl.
  unfold js_slice; simpl; rewrite skipn_nil, firstn_nil; split; reflexivity.
Qed.

Lemma list_unknown_states_empty_witness :
  let q := mkQuery (JNum 20) None (Some ["pending"]) in
  let s := run three_trace init in
  l_intents (fst (list_handler q s)) = [] /\ snd (list_handler q s) = 0.
Proof.
  apply (list_unknown_states_empty _ _ ["pending"]); [reflexivity | discriminate |].
  intros n [<- | []]; reflexivity.
Defined.

Lemma stream_get_write_other sid sid' msgs ss :
  sid <> sid' -> stream_get sid (stream_write sid' msgs ss) = stream_get sid ss.
Proof.
  intros Hne; induction ss as [|[k m] ss IH]; simpl.
  - apply Nat.eqb_neq in Hne; rewrite Hne; reflexivity.
  - destruct (Nat.eqb sid' k) eqn:E; simpl.
    + apply Nat.eqb_eq in E; subst k; apply Nat.eqb_neq in Hne; rewrite Hne; reflexivity.
    + destruct (Nat.eqb sid k); [reflexivity | exact IH].
Qed.

Lemma forEach_sse_other sid cbs ev ss :
  ~ In sid cbs ->
  exists ss', forEach sse_callback cbs ev ss = Normal ss' /\
              stream_get sid ss' = stream_get sid ss.
Proof.
  revert ss; induction cbs as [|cb cbs IH]; intros ss Hn; simpl.
  - exists ss; split; reflexivity.
  - assert (Hne : sid <> cb) by (intros ->; apply Hn; left; reflexivity).
    assert (Hn' : ~ In sid cbs) by (intros H; apply Hn; right; exact H).
    destruct ev as [i st e|]; simpl.
    + destruct (IH (stream_write cb (if is_terminal st then [SseData i st e; SseDone]
                                      else [SseData i st e]) ss) Hn') as [ss' [H1 H2]].
      exists ss'; split; [exact H1|]; rewrite H2; apply stream_get_write_other; exact Hne.
    + destruct (IH (stream_write cb [SseDone] ss) Hn') as [ss' [H1 H2]].
      exists ss'; split; [exact H1|]; rewrite H2; apply stream_get_write_other; exact Hne.
Qed.

Lemma notify_silent sid i ev s :
  (forall cbs, map_get i (intentWatchers s) = Some cbs -> ~ In sid cbs) ->
  stream_get sid (streams (notifyWatchers i ev s)) = stream_get sid (streams s).
Proof.
  intros H; unfold notifyWatchers.
  destruct (map_get i (intentWatchers s)) as [cbs|] eqn:E; [|reflexivity].
  destruct (forEach_sse_other sid cbs ev (streams s) (H cbs eq_refl)) as [ss' [H1 H2]].
  rewrite H1; exact H2.
Qed.

Lemma unwatch_not_in sid i s cbs :
  map_get i (intentWatchers (unwatch sid i s)) = Some cbs -> ~ In sid cbs.
Proof.
  unfold unwatch; destruct (map_get i (intentWatchers s)) as [cbs0|] eqn:E.
  - simpl; rewrite map_get_set_eq; intros H; injection H as <-.
    apply remove_In.
  - rewrite E; discriminate.
Qed.

(** An action that opens a watch connection with stream number [sid]. *)
Definition watches (sid : nat) (a : Action) : bool :=
  match a with Watch sid' _ => Nat.eqb sid sid' | _ => false end.

(** No intent has [sid] among its subscribers. *)
Definition unregistered (sid : nat) (s : MockState) : Prop :=
  forall j cbs, map_get j (intentWatchers s) = Some cbs -> ~ In sid cbs.

(** From [s] to [s'] the subscribers are the same, and the stream [sid]
    is unchanged when [sid] is subscribed to nothing. *)
Definition keeps_sid (sid : nat) (s s' : MockState) : Prop :=
  intentWatchers s' = intentWatchers s /\
  (unregistered sid s -> stream_get sid (streams s') = stream_get sid (streams s)).

Lemma keeps_refl sid s : keeps_sid sid s s.
Proof. split; [reflexivity | intros; reflexivity]. Qed.

Lemma keeps_set_intents sid s x l : keeps_sid sid s x -> keeps_sid sid s (set_intents l x).
Proof. intros H; exact H. Qed.

Lemma keeps_set_tasks sid s x l : keeps_sid sid s x -> keeps_sid sid s (set_tasks l x).
Proof. intros H; exact H. Qed.

Lemma keeps_stop_task sid s x t : keeps_sid sid s x -> keeps_sid sid s (stop_task t x).
Proof. intros H; exact H. Qed.

Lemma notify_watchers j e s : intentWatchers (notifyWatchers j e s) = intentWatchers s.
Proof.
  unfold notifyWatchers; destruct (map_get j (intentWatchers s)); [|reflexivity].
  destruct (forEach _ _ _ _); reflexivity.
Qed.

Lemma keeps_notify sid s x j e : keeps_sid sid s x -> keeps_sid sid s (notifyWatchers j e x).
Proof.
  intros [Hw Hs]; split; [rewrite notify_watchers; exact Hw|].
  intros Hu; rewrite notify_silent; [apply Hs, Hu|].
  intros cbs Hc; apply (Hu j cbs); rewrite <- Hw; exact Hc.
Qed.

Lemma keeps_complete sid s x j : keeps_sid sid s x -> keeps_sid sid s (complete_intent j x).
Proof.
  intros H; unfold complete_intent.
  destruct (map_get j (intents x)) as [final|]; [|exact H].
  destruct (ExecutionState_beq (state final) CANCELLED); [exact H|].
  apply keeps_notify, keeps_set_intents, H.
Qed.

Lemma keeps_driver sid t r s : keeps_sid sid s (driver_step t r s).
Proof.
  unfold driver_step.
  destruct (find_task t (tasks s)) as [tk|]; [|apply keeps_refl].
  destruct (nth_error stages (task_stage tk)) as [[[st msg] d]|];
    [|apply keeps_stop_task, keeps_refl].
  destruct (map_get (task_id tk) (intents s)) as [cur|];
    [|apply keeps_stop_task, keeps_refl].
  destruct (ExecutionState_beq (state cur) CANCELLED);
    [apply keeps_stop_task, keeps_refl|].
  destruct (_ && _).
  - apply keeps_stop_task, keeps_notify, keeps_set_intents, keeps_refl.
  - destruct (Nat.ltb _ _).
    + apply keeps_set_tasks, keeps_notify, keeps_set_intents, keeps_refl.
    + apply keeps_stop_task, keeps_complete, keeps_notify, keeps_set_intents, keeps_refl.
Qed.

Lemma in_set_add x y l : In x (set_add y l) -> x = y \/ In x l.
Proof.
  unfold set_add; intros H; destruct (existsb (Nat.eqb y) l); [right; exact H|].
  apply in_app_or in H; destruct H as [H|[H|[]]]; [right; exact H | left; congruence].
Qed.

Lemma keeps_unregistered sid s s' : keeps_sid sid s s' -> unregistered sid s -> unregistered sid s'.
Proof. intros [Hw _] Hu j cbs; rewrite Hw; apply Hu. Qed.

Lemma quiet_step sid a s :
  watches sid a = false -> unregistered sid s ->
  unregistered sid (step a s) /\
  stream_get sid (streams (step a s)) = stream_get sid (streams s).
Proof.
  intros Hwa Hu.
  assert (K : forall s', keeps_sid sid s s' ->
                unregistered sid s' /\ stream_get sid (streams s') = stream_get sid (streams s)).
  { intros s' Hk; split; [exact (keeps_unregistered sid s s' Hk Hu) | exact (proj2 Hk Hu)]. }
  destruct a as [p f|t r|j| | | |sid' j|dt]; simpl in Hwa; cbn [step];
    [apply K .. | | apply K].
  - unfold createIntent, simulateExecution_start; simpl.
    destruct (map_get _ _); exact (keeps_refl sid s).
  - apply keeps_driver.
  - unfold cancelIntent; destruct (map_get j (intents s)) as [it|]; [|apply keeps_refl].
    destruct (_ || _); [apply keeps_refl|].
    apply keeps_notify, keeps_set_intents, keeps_refl.
  - unfold kill; destruct (kill_intents (now s) (intents s)) as [li n].
    destruct (kill_agents (now s) (agents s)) as [la m]; exact (keeps_refl sid s).
  - exact (keeps_refl sid s).
  - exact (keeps_refl sid s).
  - apply Nat.eqb_neq in Hwa.
    destruct (watch_handler sid' j s) as [s'|] eqn:W; [|split; [exact Hu | reflexivity]].
    unfold watch_handler in W; destruct (map_get j (intents s)) as [it|]; [|discriminate].
    destruct (is_terminal (state it)); injection W as <-.
    + split; [exact Hu|]; simpl; apply stream_get_write_other; exact Hwa.
    + split.
      * intros k cbs; simpl.
        destruct (String.eqb_spec k j) as [->|Hk].
        -- rewrite map_get_set_eq; intros Hc; injection Hc as <-.
           intros Hin; apply in_set_add in Hin; destruct Hin as [Heq|Hin]; [exact (Hwa Heq)|].
           destruct (map_get j (intentWatchers s)) as [l|] eqn:E; [exact (Hu j l E Hin)|].
           destruct Hin.
        -- rewrite map_get_set_neq by exact Hk; apply Hu.
      * simpl; apply stream_get_write_other; exact Hwa.
  - exact (keeps_refl sid s).
Qed.

Lemma quiet_run sid tr s :
  Forall (fun a => watches sid a = false) tr -> unregistered sid s ->
  stream_get sid (streams (run tr s)) = stream_get sid (streams s).
Proof.
  revert s; induction tr as [|a tr IH]; intros s HF Hu; simpl; [reflexivity|].
  inversion HF as [|? ? Ha Htr]; subst.
  destruct (quiet_step sid a s Ha Hu) as [Hu' Hs].
  rewrite (IH _ Htr Hu'); exact Hs.
Qed.

Lemma unwatch_unregistered sid i s :
  (forall j cbs, j <> i -> map_get j (intentWatchers s) = Some cbs -> ~ In sid cbs) ->
  unregistered sid (unwatch sid i s).
Proof.
  intros Ho j cbs; destruct (String.eqb_spec j i) as [->|Hj]; [apply unwatch_not_in|].
  unfold unwatch; destruct (map_get i (intentWatchers s)) as [l|]; simpl;
    [rewrite map_get_set_neq by exact Hj|]; apply Ho; exact Hj.
Qed.

(** X13. Once a watch connection is aborted (the unsubscribe function
    runs), nothing is written to its stream any more, whatever the store
    does next, as long as no new watch connection reuses the stream: later
    notifications of the intent, cancellations, driver steps, kills and
    other watch connections all leave it as it was.  The stream is
    subscribed to that one intent only. *)
Theorem unwatch_silences sid i s tr :
  (forall j cbs, j <> i -> map_get j (intentWatchers s) = Some cbs -> ~ In sid cbs) ->
  Forall (fun a => watches sid a = false) tr ->
  stream_get sid (streams (run tr (unwatch sid i s))) = stream_get sid (streams s).
Proof.
  intros Ho HF.
  rewrite (quiet_run sid tr _ HF (unwatch_unregistered sid i s Ho)).
  unfold unwatch; destruct (map_get i (intentWatchers s)); reflexivity.
Qed.

Lemma unwatch_silences_witness :
  let s := run [Create (payload None) "a"; Watch 1 "a"; Create (payload None) "b";
                Watch 2 "b"] init in
  stream_get 1 (streams (run [Cancel "a"; Watch 2 "a"; DriverStep 0 half;
                              DriverStep 1 half; Kill] (unwatch 1 "a" s))) =
    stream_get 1 (streams s).
Proof.
  intros s.
  assert (Ho : forall j cbs, j <> "a" -> map_get j (intentWatchers s) = Some cbs -> ~ In 1 cbs).
  { intros j cbs Hj H.
    assert (Hw : intentWatchers s = [("a", [1]); ("b", [2])]) by (vm_compute; reflexivity).
    rewrite Hw in H; simpl in H.
    destruct (String.eqb j "a") eqn:E; [apply String.eqb_eq in E; contradiction|].
    destruct (String.eqb j "b"); [|discriminate].
    injection H as <-; simpl; intuition discriminate. }
  apply (unwatch_silences 1 "a" s _ Ho); repeat constructor.
Defined.

(** X14. A failure configured with [/_mock/fail-next] (absent fields
    defaulting to [INTERNAL], "Simulated failure" and 500) answers the
    next authenticated request under [/api/v1] other than the health
    check, with its code and message when its status is one a [Response]
    can carry, and with a plain 500 otherwise.  Either way it answers only
    that request: it is cleared, the latency is kept, and the request
    after it reaches its handler. *)
Theorem fail_next_served_once code msg st c path a path' a' :
  path <> "/api/v1/health" -> String.prefix "Bearer nxw_" a = true ->
  path' <> "/api/v1/health" -> String.prefix "Bearer nxw_" a' = true ->
  let c1 := fst (fail_next_handler code msg st c) in
  let f := snd (fail_next_handler code msg st c) in
  f = mkFailure (match code with Some x => x | None => "INTERNAL" end)
        (match msg with Some x => x | None => "Simulated failure" end)
        (match st with Some x => x | None => 500%Z end) /\
  auth_middleware path (Some a) c1 =
    (mkControls None (latencyMs c),
     if response_status_ok (f_status f) then MwForced f else MwInternalError) /\
  snd (auth_middleware path' (Some a') (fst (auth_middleware path (Some a) c1))) =
    MwNext (if (0 <? latencyMs c)%Z then Some (latencyMs c) else None).
Proof.
  intros Hp Ha Hp' Ha'; simpl.
  unfold auth_middleware; apply String.eqb_neq in Hp, Hp'.
  rewrite Hp, Ha; simpl; rewrite Hp', Ha'; simpl.
  repeat split.
Qed.

Lemma fail_next_served_once_witness :
  let c1 := fst (fail_next_handler None None (Some 204%Z) (mkControls None 0)) in
  auth_middleware "/api/v1/intents" (Some "Bearer nxw_test") c1 =
    (mkControls None 0, MwInternalError) /\
  snd (auth_middleware "/api/v1/intents" (Some "Bearer nxw_test")
         (fst (auth_middleware "/api/v1/intents" (Some "Bearer nxw_test") c1))) =
    MwNext None.
Proof.
  destruct (fail_next_served_once None None (Some 204%Z) (mkControls None 0)
              "/api/v1/intents" "Bearer nxw_test" "/api/v1/intents" "Bearer nxw_test"
              ltac:(discriminate) eq_refl ltac:(discriminate) eq_refl)
    as [_ [H1 H2]].
  split; [exact H1 | exact H2].
Defined.

(** X15. The health check and the requests the middleware rejects for a
    missing or malformed [Authorization] header never consume a configured
    failure nor change the controls; the health check is also never
    delayed. *)
Theorem middleware_keeps_controls path auth c :
  (path = "/api/v1/health" -> auth_middleware path auth c = (c, MwNext None)) /\
  (path <> "/api/v1/health" ->
     (forall a, auth = Some a -> String.prefix "Bearer nxw_" a = false) ->
     auth_middleware path auth c = (c, MwUnauthenticated)).
Proof.
  unfold auth_middleware; split.
  - intros ->; reflexivity.
  - intros Hp Ha; apply String.eqb_neq in Hp; rewrite Hp.
    destruct auth as [a|]; [rewrite (Ha a eq_refl)|]; reflexivity.
Qed.

Lemma middleware_keeps_controls_witness :
  let c := mkControls (Some (mkFailure "INTERNAL" "Simulated failure" 500)) 0 in
  auth_middleware "/api/v1/intents" (Some "Bearer sk_test") c = (c, MwUnauthenticated).
Proof.
  apply (proj2 (middleware_keeps_controls _ _ _)); [discriminate|].
  intros a H; injection H as <-; reflexivity.
Defined.

Definition creates (a : Action) : bool :=
  match a with Create _ _ => true | _ => false end.

Lemma step_empty_store a s :
  creates a = false -> intents s = [] -> intentWatchers s = [] ->
  intents (step a s) = [] /\ intentWatchers (step a s) = [] /\
  streams (step a s) = streams s.
Proof.
  intros Hc Hi Hw; destruct a as [p f|t r|i| | | |sid i|dt]; simpl; try discriminate.
  - unfold driver_step.
    destruct (find_task t (tasks s)) as [tk|]; [|auto].
    destruct (nth_error stages (task_stage tk)) as [[[st msg] d]|]; [|auto].
    rewrite Hi; simpl; auto.
  - unfold cancelIntent; rewrite Hi; simpl; auto.
  - unfold kill; rewrite Hi; simpl.
    destruct (kill_agents (now s) (agents s)); simpl; auto.
  - auto.
  - auto.
  - unfold watch_handler; rewrite Hi; simpl; auto.
  - auto.
Qed.

(** X16. After [reset], the queue status is all zero and not paused and the
    controls are cleared; and until an intent is created again, the parked
    drivers of the removed intents, cancellations, kills, watches, pauses
    and clock ticks leave the store empty, register no subscriber and
    write nothing to any open stream. *)
Theorem reset_clears s c tr :
  Forall (fun a => creates a = false) tr ->
  getQueueStatus (fst (reset s c)) = mkQueue 0 0 0 false /\
  snd (reset s c) = mkControls None 0 /\
  intents (run tr (fst (reset s c))) = [] /\
  intentWatchers (run tr (fst (reset s c))) = [] /\
  streams (run tr (fst (reset s c))) = streams s.
Proof.
  intros Htr; split; [reflexivity|]; split; [reflexivity|].
  assert (G : forall tr s0, Forall (fun a => creates a = false) tr ->
                intents s0 = [] -> intentWatchers s0 = [] ->
                intents (run tr s0) = [] /\ intentWatchers (run tr s0) = [] /\
                streams (run tr s0) = streams s0).
  { induction tr0 as [|a tr0 IH]; intros s0 Hf Hi Hw; simpl; [auto|].
    inversion Hf as [|a' tr' Ha Hf']; subst.
    destruct (step_empty_store a s0 Ha Hi Hw) as [H1 [H2 H3]].
    destruct (IH (step a s0) Hf' H1 H2) as [G1 [G2 G3]].
    rewrite H3 in G3; auto. }
  exact (G tr (fst (reset s c)) Htr eq_refl eq_refl).
Qed.

Lemma reset_clears_witness :
  let s := run [Create (payload None) "a"] init in
  intents (run [DriverStep 0 half; Kill] (fst (reset s (mkControls None 0)))) = [].
Proof.
  refine (proj1 (proj2 (proj2 (reset_clears _ _ [DriverStep 0 half; Kill] _)))).
  repeat constructor.
Defined.

(** ** Facts about the agent registry *)

Lemma map_get_not_in {V} (k : string) (m : list (string * V)) :
  ~ In k (map fst m) -> map_get k m = None.
Proof.
  induction m as [|[k' v] m IH]; simpl; intros H; [reflexivity|].
  destruct (String.eqb k k') eqn:E.
  - apply String.eqb_eq in E; subst; exfalso; apply H; left; reflexivity.
  - apply IH; intros Hin; apply H; right; exact Hin.
Qed.

Lemma map_get_none_delete {V} (k : string) (m : list (string * V)) :
  map_get k m = None -> map_delete k m = m.
Proof.
  induction m as [|[k' v] m IH]; simpl; intros H; [reflexivity|].
  unfold map_delete in *; simpl.
  destruct (String.eqb k k') eqn:E; [discriminate|]; simpl; f_equal; apply IH; exact H.
Qed.

Lemma map_get_delete_eq {V} (k : string) (m : list (string * V)) :
  map_get k (map_delete k m) = None.
Proof.
  induction m as [|[k' v] m IH]; simpl; [reflexivity|].
  unfold map_delete in *; simpl.
  destruct (String.eqb k k') eqn:E; simpl; [exact IH|]; rewrite E; exact IH.
Qed.

Lemma map_get_delete_neq {V} (k k' : string) (m : list (string * V)) :
  k' <> k -> map_get k' (map_delete k m) = map_get k' m.
Proof.
  intros Hne; induction m as [|[k'' v] m IH]; simpl; [reflexivity|].
  unfold map_delete in *; simpl.
  destruct (String.eqb k k'') eqn:E; simpl.
  - apply String.eqb_eq in E; subst k''; apply String.eqb_neq in Hne; rewrite Hne; exact IH.
  - destruct (String.eqb k' k''); [reflexivity | exact IH].
Qed.

Lemma assign_all_get k m kv :
  NoDup (map fst kv) ->
  map_get k (assign_all m kv) =
    match map_get k kv with Some v => Some v | None => map_get k m end.
Proof.
  revert m; induction kv as [|[k' v'] kv IH]; intros m Hnd; [reflexivity|].
  inversion Hnd as [|x l Hnin Hnd']; subst.
  change (assign_all m ((k', v') :: kv)) with (assign_all (map_set k' v' m) kv).
  rewrite (IH _ Hnd'); simpl.
  destruct (String.eqb k k') eqn:E.
  - apply String.eqb_eq in E; subst k'.
    rewrite (map_get_not_in k kv Hnin), map_get_set_eq; reflexivity.
  - apply String.eqb_neq in E; rewrite map_get_set_neq by exact E; reflexivity.
Qed.

(** Reading one property of a JSON object. *)
Definition obj_get (k : string) (v : Json) : option Json :=
  match v with JObject kv => map_get k kv | _ => None end.

(** X17. [createAgent] names the agent [agt_] followed by the first eight
    characters of the random UUID and stores it under that id: looking the
    id up returns the new agent, [CREATED], with zero counters, a daily
    notional of "0", created now and never started or stopped; every other
    id keeps its agent; the id joins the end of the registry unless an
    agent already had it, which is then replaced in place. *)
Theorem createAgent_stores name config uuid t db :
  let a := snd (createAgent name config uuid t db) in
  let db' := fst (createAgent name config uuid t db) in
  ag_id a = String.append "agt_" (substring 0 8 uuid) /\
  getAgent (ag_id a) db' = Some a /\
  ag_status a = A_CREATED /\ ag_state a = mkAgentState 0 "0" 0 None None /\
  ag_createdAt a = t /\ ag_startedAt a = None /\ ag_stoppedAt a = None /\
  (forall k, k <> ag_id a -> getAgent k db' = getAgent k db) /\
  map fst db' =
    (if existsb (String.eqb (ag_id a)) (map fst db) then map fst db
     else map fst db ++ [ag_id a]).
Proof.
  unfold createAgent, getAgent; simpl.
  repeat split.
  - apply map_get_set_eq.
  - intros k Hk; apply map_get_set_neq; exact Hk.
  - apply map_set_keys.
Qed.

(** X18. Starting and stopping an agent works from any status and only
    touches that agent: stopping after a start at [t1] leaves it [STOPPED]
    at [t2] with [startedAt = t1]; starting after a stop at [t1] leaves it
    [RUNNING] since [t2] while it still reports [stoppedAt = t1].  Its
    name, config and creation time are kept. *)
Theorem start_stop_sequence i a t1 t2 db :
  getAgent i db = Some a ->
  (exists a2,
     getAgent i (fst (stopAgent i t2 (fst (startAgent i t1 db)))) = Some a2 /\
     ag_status a2 = A_STOPPED /\ ag_startedAt a2 = Some t1 /\ ag_stoppedAt a2 = Some t2 /\
     ag_name a2 = ag_name a /\ ag_config a2 = ag_config a /\
     ag_createdAt a2 = ag_createdAt a) /\
  (exists a2,
     getAgent i (fst (startAgent i t2 (fst (stopAgent i t1 db)))) = Some a2 /\
     ag_status a2 = A_RUNNING /\ ag_startedAt a2 = Some t2 /\ ag_stoppedAt a2 = Some t1 /\
     ag_name a2 = ag_name a /\ ag_config a2 = ag_config a /\
     ag_createdAt a2 = ag_createdAt a) /\
  (forall k, k <> i ->
     getAgent k (fst (startAgent i t1 db)) = getAgent k db /\
     getAgent k (fst (stopAgent i t1 db)) = getAgent k db).
Proof.
  unfold getAgent, startAgent, stopAgent; intros H; rewrite H; simpl.
  rewrite !map_get_set_eq; simpl.
  split; [|split].
  - eexists; split; [apply map_get_set_eq|]; repeat split.
  - eexists; split; [apply map_get_set_eq|]; repeat split.
  - intros k Hk; split; apply map_get_set_neq; exact Hk.
Qed.

Lemma start_stop_sequence_witness :
  let db := fst (createAgent (JString "dca") (JObject []) "12345678-aaaa" 0%Z []) in
  exists a2,
    getAgent "agt_12345678" (fst (stopAgent "agt_12345678" 2%Z
                                    (fst (startAgent "agt_12345678" 1%Z db)))) = Some a2 /\
    ag_status a2 = A_STOPPED /\ ag_startedAt a2 = Some 1%Z /\ ag_stoppedAt a2 = Some 2%Z /\
    ag_name a2 = JString "dca" /\ ag_config a2 = JObject [] /\ ag_createdAt a2 = 0%Z.
Proof.
  exact (proj1 (start_stop_sequence "agt_12345678"
                  (mkAgentRecord "agt_12345678" (JString "dca") A_CREATED (JObject [])
                     (mkAgentState 0 "0" 0 None None) 0%Z None None) 1%Z 2%Z
                  (fst (createAgent (JString "dca") (JObject []) "12345678-aaaa" 0%Z [])) eq_refl)).
Defined.

(** X19. For an id with no agent, the get, start, stop, update and delete
    endpoints all answer 404 and leave the registry as it is. *)
Theorem unknown_agent_404 i t cfg nm db :
  getAgent i db = None ->
  get_agent_handler i db = Err 404 "NOT_FOUND" "Agent not found" /\
  start_agent_handler i t db = (db, Err 404 "NOT_FOUND" "Agent not found") /\
  stop_agent_handler i t db = (db, Err 404 "NOT_FOUND" "Agent not found") /\
  patch_agent_handler i cfg nm db = (db, Err 404 "NOT_FOUND" "Agent not found") /\
  delete_agent_handler i db = (db, Err 404 "NOT_FOUND" "Agent not found").
Proof.
  intros H.
  unfold get_agent_handler, start_agent_handler, stop_agent_handler,
    patch_agent_handler, delete_agent_handler, deleteAgent, startAgent, stopAgent.
  unfold getAgent in *; rewrite H, (map_get_none_delete i db H).
  repeat split.
Qed.

Lemma unknown_agent_404_witness :
  delete_agent_handler "agt_x" [] = ([], Err 404 "NOT_FOUND" "Agent not found").
Proof.
  exact (proj2 (proj2 (proj2 (proj2 (unknown_agent_404 "agt_x" 0%Z JUndefined JUndefined []
                                          eq_refl))))).
Defined.

(** X20. Deleting an existing agent answers [deleted: true], after which
    the agent is gone, every other agent is still there, and deleting it
    again answers 404. *)
Theorem delete_agent_contract i a db :
  getAgent i db = Some a ->
  let db' := fst (delete_agent_handler i db) in
  snd (delete_agent_handler i db) = Ok true /\
  getAgent i db' = None /\
  (forall k, k <> i -> getAgent k db' = getAgent k db) /\
  snd (delete_agent_handler i db') = Err 404 "NOT_FOUND" "Agent not found".
Proof.
  intros H; unfold delete_agent_handler, deleteAgent, getAgent in *; rewrite H; simpl.
  rewrite map_get_delete_eq; repeat split.
  intros k Hk; apply map_get_delete_neq; exact Hk.
Qed.

Lemma delete_agent_contract_witness :
  let db := fst (createAgent (JString "dca") (JObject []) "12345678-aaaa" 0%Z []) in
  snd (delete_agent_handler "agt_12345678" (fst (delete_agent_handler "agt_12345678" db))) =
    Err 404 "NOT_FOUND" "Agent not found".
Proof.
  exact (proj2 (proj2 (proj2 (delete_agent_contract "agt_12345678"
           (mkAgentRecord "agt_12345678" (JString "dca") A_CREATED (JObject [])
              (mkAgentState 0 "0" 0 None None) 0%Z None None)
              (fst (createAgent (JString "dca") (JObject []) "12345678-aaaa" 0%Z [])) eq_refl)))).
Defined.

(** X21. The create-agent endpoint answers 400 [INVALID_ARGUMENT] and
    stores nothing when the name or the config is missing or falsy;
    otherwise the agent it answers is the one stored under its id, with the
    given name and config, and it is already [RUNNING] since now when
    [startImmediately] is truthy, [CREATED] and never started otherwise. *)
Theorem create_agent_handler_contract name config si uuid t db :
  ((truthy name = false \/ truthy config = false) ->
     create_agent_handler name config si uuid t db =
       (db, Err 400 "INVALID_ARGUMENT" "Name and config are required")) /\
  (truthy name = true -> truthy config = true ->
     exists a,
       snd (create_agent_handler name config si uuid t db) = Ok a /\
       getAgent (ag_id a) (fst (create_agent_handler name config si uuid t db)) = Some a /\
       ag_id a = String.append "agt_" (substring 0 8 uuid) /\
       ag_name a = name /\ ag_config a = config /\
       ag_status a = (if truthy si then A_RUNNING else A_CREATED) /\
       ag_startedAt a = (if truthy si then Some t else None)).
Proof.
  unfold create_agent_handler; split.
  - intros [H|H]; rewrite H; [reflexivity|]; rewrite andb_false_r; reflexivity.
  - intros Hn Hc; rewrite Hn, Hc; simpl.
    destruct (truthy si).
    + unfold startAgent; simpl; rewrite map_get_set_eq.
      eexists; split; [reflexivity|]; simpl.
      split; [unfold getAgent; apply map_get_set_eq|]; repeat split.
    + eexists; split; [reflexivity|]; simpl.
      split; [unfold getAgent; apply map_get_set_eq|]; repeat split.
Qed.

Lemma create_agent_handler_contract_witness :
  create_agent_handler (JString "") (JObject []) JUndefined "12345678-aaaa" 0%Z [] =
    ([], Err 400 "INVALID_ARGUMENT" "Name and config are required").
Proof.
  apply (proj1 (create_agent_handler_contract (JString "") (JObject []) JUndefined
                  "12345678-aaaa" 0%Z [])).
  left; reflexivity.
Defined.

(** X22. Updating an existing agent with a [config] object merges it into
    the stored config object: a key the update carries takes its new
    value, every other key keeps its old one; the name is replaced only by
    a truthy one, and the id, the status, the execution state and the
    creation, start and stop times are kept.  The stored agent is the one
    answered. *)
Theorem patch_agent_merge i a okv nkv nm db :
  getAgent i db = Some a -> ag_config a = JObject okv ->
  NoDup (map fst okv) -> NoDup (map fst nkv) ->
  exists a',
    snd (patch_agent_handler i (JObject nkv) nm db) = Ok a' /\
    getAgent i (fst (patch_agent_handler i (JObject nkv) nm db)) = Some a' /\
    (forall k, obj_get k (ag_config a') =
                 match map_get k nkv with Some v => Some v | None => obj_get k (ag_config a) end) /\
    ag_name a' = (if truthy nm then nm else ag_name a) /\
    ag_id a' = ag_id a /\ ag_status a' = ag_status a /\ ag_state a' = ag_state a /\
    ag_createdAt a' = ag_createdAt a /\ ag_startedAt a' = ag_startedAt a /\
    ag_stoppedAt a' = ag_stoppedAt a.
Proof.
  intros H Hc Ho Hn; unfold patch_agent_handler; rewrite H; simpl.
  eexists; split; [reflexivity|]; split; [unfold getAgent; apply map_get_set_eq|].
  split; [|destruct (truthy nm); simpl; repeat split].
  intros k; destruct (truthy nm); simpl; unfold spread_merge; rewrite Hc; simpl;
    rewrite (assign_all_get k _ nkv Hn), (assign_all_get k [] okv Ho);
    destruct (map_get k nkv), (map_get k okv); reflexivity.
Qed.

Lemma patch_agent_merge_witness :
  let db := fst (createAgent (JString "dca") (JObject [("amount", JNumber 10); ("asset", JString "SOL")])
                   "12345678-aaaa" 0%Z []) in
  exists a',
    snd (patch_agent_handler "agt_12345678" (JObject [("amount", JNumber 20)]) JUndefined db) = Ok a' /\
    getAgent "agt_12345678" (fst (patch_agent_handler "agt_12345678"
                                    (JObject [("amount", JNumber 20)]) JUndefined db)) = Some a' /\
    (forall k, obj_get k (ag_config a') =
                 match map_get k [("amount", JNumber 20)] with
                 | Some v => Some v
                 | None => obj_get k (JObject [("amount", JNumber 10); ("asset", JString "SOL")])
                 end) /\
    ag_name a' = JString "dca" /\ ag_id a' = "agt_12345678" /\ ag_status a' = A_CREATED /\
    ag_state a' = mkAgentState 0 "0" 0 None None /\ ag_createdAt a' = 0%Z /\
    ag_startedAt a' = None /\ ag_stoppedAt a' = None.
Proof.
  apply (patch_agent_merge "agt_12345678"
           (mkAgentRecord "agt_12345678" (JString "dca") A_CREATED
              (JObject [("amount", JNumber 10); ("asset", JString "SOL")])
              (mkAgentState 0 "0" 0 None None) 0%Z None None)
           [("amount", JNumber 10); ("asset", JString "SOL")]);
    [reflexivity | reflexivity | | ].
  - repeat constructor; simpl; intuition discriminate.
  - repeat constructor; simpl; intuition.
Defined.
